(** * serverless-offline-sqs-invoke: the queue resolver and the SendMessage gateway

    A shallow embedding of the plugin class [OfflineSQSInvokePlugin]
    (the TypeScript source and its compiled [index.js] have the same
    control flow) and the properties of its three methods [start],
    [startHttp] and [onMessage].

    Scope of the embedding.
    - Configuration data and form data are JavaScript values: [undefined],
      [null], booleans, integers, strings, arrays and plain objects.
    - An object is the list of its own properties in enumeration order;
      the prototype chain is not part of the model, so a property name
      that collides with a member of [Object.prototype] is read as any
      other name.
    - Strings are Rocq strings; a number is an integer and prints in plain
      decimal.
    - A failing JavaScript operation is an abrupt completion [Throw]; the
      state reached at that point is kept. *)

From Stdlib Require Import String Ascii List ZArith Bool Lia DecimalString.
Import ListNotations.
Open Scope string_scope.
Set Warnings "-register-all".

(** ** JavaScript values *)

Inductive value : Type :=
| VUndefined
| VNull
| VBool (b : bool)
| VNum (n : Z)
| VStr (s : string)
| VArr (elems : list value)
| VObj (props : list (string * value)).

Inductive type_error : Type :=
| ReadOfNullish (base : value) (key : string)   (* x.k with x undefined or null *)
| NotAnObject (v : value)                        (* Object.entries(v) with v undefined or null *)
| NotIterable (v : value)                        (* for (... of v) *)
| NotAFunction (base : value) (method : string). (* x.m(...) where x.m is not callable *)

Inductive exn : Type :=
| TypeError (why : type_error)
| Rejected (reason : value).                     (* a rejected promise of the Lambda client *)

Inductive completion (A : Type) : Type :=
| Normal (a : A)
| Throw (e : exn).
Arguments Normal {A} a.
Arguments Throw {A} e.

Definition obj := list (string * value).

(** Own property lookup. *)
Fixpoint lookup (k : string) (o : obj) : option value :=
  match o with
  | [] => None
  | (k', v) :: r => if (k' =? k)%string then Some v else lookup k r
  end.

(** [o[k] = v] on an object: an existing own property keeps its place,
    a new one is added last. *)
Fixpoint assign (k : string) (v : value) (o : obj) : obj :=
  match o with
  | [] => [(k, v)]
  | (k', v') :: r =>
      if (k' =? k)%string then (k', v) :: r else (k', v') :: assign k v r
  end.

Definition keys (o : obj) : list string := map fst o.

Definition string_of_nat (n : nat) : string :=
  NilZero.string_of_uint (Nat.to_uint n).

Definition string_of_Z (n : Z) : string :=
  NilZero.string_of_int (Z.to_int n).

(** ToString, which is also ToPropertyKey and the conversion of a template
    literal's substitution. *)
Fixpoint ToString (v : value) : string :=
  match v with
  | VUndefined => "undefined"
  | VNull => "null"
  | VBool true => "true"
  | VBool false => "false"
  | VNum n => string_of_Z n
  | VStr s => s
  | VArr l =>
      (fix join (l : list value) : string :=
         match l with
         | [] => EmptyString
         | x :: r =>
             let e := match x with
                      | VUndefined | VNull => EmptyString
                      | _ => ToString x
                      end in
             match r with
             | [] => e
             | _ :: _ => e ++ "," ++ join r
             end
         end) l
  | VObj _ => "[object Object]"
  end.

(** ToBoolean. *)
Definition truthy (v : value) : bool :=
  match v with
  | VUndefined | VNull => false
  | VBool b => b
  | VNum n => negb (n =? 0)%Z
  | VStr s => negb (s =? EmptyString)%string
  | VArr _ | VObj _ => true
  end.

(** [v == undefined], [v == null]. *)
Definition nullish (v : value) : bool :=
  match v with
  | VUndefined | VNull => true
  | _ => false
  end.

(** [v == lit] for a string literal [lit] that is not a numeric literal
    (all three literals of the program are such): a number or a boolean is
    compared with NaN, an array or an object through its primitive string. *)
Definition loose_eq_str (v : value) (lit : string) : bool :=
  match v with
  | VStr s => (s =? lit)%string
  | VArr _ | VObj _ => (ToString v =? lit)%string
  | _ => false
  end.

(** StringToNumber on plain decimal integer literals.  Other spellings of
    a number (blanks, the empty string, fractions, exponents, other bases)
    are read as NaN; the program compares a string with the number 2 only,
    in [is_GetAtt_Arn], so this matters for such spellings of 2 in an
    own [length] property alone. *)
Definition StringToNumber (s : string) : option Z :=
  match NilZero.int_of_string s with
  | Some d => Some (Z.of_int d)
  | None => None
  end.

(** [v == n] for a number literal [n]. *)
Definition loose_eq_num (v : value) (n : Z) : bool :=
  match v with
  | VNum m => (m =? n)%Z
  | VBool b => ((if b then 1 else 0) =? n)%Z
  | VStr s => match StringToNumber s with Some m => (m =? n)%Z | None => false end
  | VArr _ | VObj _ =>
      match StringToNumber (ToString v) with Some m => (m =? n)%Z | None => false end
  | VUndefined | VNull => false
  end.

(** The array index a property key denotes, below [len]. *)
Definition index_of_key (k : string) (len : nat) : option nat :=
  find (fun i => (string_of_nat i =? k)%string) (seq 0 len).

Definition char_at (s : string) (i : nat) : value :=
  match String.get i s with
  | Some c => VStr (String c EmptyString)
  | None => VUndefined
  end.

(** Property read [o[k]] (and [o.k]). *)
Definition Get (o : value) (k : string) : completion value :=
  match o with
  | VUndefined | VNull => Throw (TypeError (ReadOfNullish o k))
  | VBool _ | VNum _ => Normal VUndefined
  | VStr s =>
      if (k =? "length")%string then Normal (VNum (Z.of_nat (String.length s)))
      else match index_of_key k (String.length s) with
           | Some i => Normal (char_at s i)
           | None => Normal VUndefined
           end
  | VArr l =>
      if (k =? "length")%string then Normal (VNum (Z.of_nat (List.length l)))
      else match index_of_key k (List.length l) with
           | Some i => Normal (nth i l VUndefined)
           | None => Normal VUndefined
           end
  | VObj ps =>
      match lookup k ps with
      | Some v => Normal v
      | None => Normal VUndefined
      end
  end.

(** [o.hasOwnProperty(k)]. *)
Definition hasOwnProperty (o : value) (k : string) : completion bool :=
  match o with
  | VUndefined | VNull => Throw (TypeError (ReadOfNullish o "hasOwnProperty"))
  | VBool _ | VNum _ => Normal false
  | VStr s =>
      Normal ((k =? "length")%string
              || match index_of_key k (String.length s) with Some _ => true | None => false end)
  | VArr l =>
      Normal ((k =? "length")%string
              || match index_of_key k (List.length l) with Some _ => true | None => false end)
  | VObj ps =>
      Normal (match lookup k ps with Some _ => true | None => false end)
  end.

(** [o?.hasOwnProperty(k)] in a boolean context: [undefined] when [o] is
    nullish, which is falsy. *)
Definition opt_hasOwnProperty (o : value) (k : string) : bool :=
  match hasOwnProperty o k with
  | Normal b => b
  | Throw _ => false
  end.

(** [o?.k]. *)
Definition opt_Get (o : value) (k : string) : completion value :=
  if nullish o then Normal VUndefined else Get o k.

(** [Object.entries(o)]. *)
Definition Object_entries (o : value) : completion obj :=
  match o with
  | VUndefined | VNull => Throw (TypeError (NotAnObject o))
  | VBool _ | VNum _ => Normal []
  | VStr s =>
      Normal (map (fun i => (string_of_nat i, char_at s i)) (seq 0 (String.length s)))
  | VArr l =>
      Normal (map (fun i => (string_of_nat i, nth i l VUndefined)) (seq 0 (List.length l)))
  | VObj ps => Normal ps
  end.

(** The values a [for ... of] loop visits. *)
Definition iterate (v : value) : completion (list value) :=
  match v with
  | VArr l => Normal l
  | VStr s => Normal (map (char_at s) (seq 0 (String.length s)))
  | _ => Throw (TypeError (NotIterable v))
  end.

(** [s.split(sep)] for a one-character separator. *)
Fixpoint split (sep : ascii) (s : string) : list string :=
  match s with
  | EmptyString => [EmptyString]
  | String c r =>
      if Ascii.eqb c sep then EmptyString :: split sep r
      else match split sep r with
           | [] => [String c EmptyString]
           | h :: t => String c h :: t
           end
  end.

(** [a.at(-1)] on an array of strings. *)
Definition at_last (a : list string) : value :=
  last (map VStr a) VUndefined.

(** [s.split(sep).at(-1)]; [split] is not a method of the other values. *)
Definition split_at_last (v : value) (sep : ascii) : completion value :=
  match v with
  | VStr s => Normal (at_last (split sep s))
  | VUndefined | VNull => Throw (TypeError (ReadOfNullish v "split"))
  | _ => Throw (TypeError (NotAFunction v "split"))
  end.

(** ** JSON.stringify *)

Definition dquote : string := String (ascii_of_nat 34) EmptyString.

Definition hex_digit (n : nat) : string :=
  String (nth n ["0"; "1"; "2"; "3"; "4"; "5"; "6"; "7"; "8"; "9";
                 "a"; "b"; "c"; "d"; "e"; "f"]%char "0"%char) EmptyString.

Definition json_escape_char (c : ascii) : string :=
  let n := nat_of_ascii c in
  if (n =? 34)%nat then "\" ++ dquote
  else if (n =? 92)%nat then "\\"
  else if (n =? 8)%nat then "\b"
  else if (n =? 12)%nat then "\f"
  else if (n =? 10)%nat then "\n"
  else if (n =? 13)%nat then "\r"
  else if (n =? 9)%nat then "\t"
  else if (n <? 32)%nat then "\u00" ++ hex_digit (n / 16) ++ hex_digit (n mod 16)
  else String c EmptyString.

Fixpoint json_escape (s : string) : string :=
  match s with
  | EmptyString => EmptyString
  | String c r => json_escape_char c ++ json_escape r
  end.

Definition json_quote (s : string) : string :=
  dquote ++ json_escape s ++ dquote.

(** The text [JSON.stringify] writes for a value inside a document: an
    [undefined] array element is written [null], an [undefined] property
    is left out. *)
Fixpoint json_text (v : value) : string :=
  match v with
  | VUndefined | VNull => "null"
  | VBool true => "true"
  | VBool false => "false"
  | VNum n => string_of_Z n
  | VStr s => json_quote s
  | VArr l =>
      "[" ++ String.concat ","
               ((fix elems (l : list value) : list string :=
                   match l with
                   | [] => []
                   | x :: r => json_text x :: elems r
                   end) l) ++ "]"
  | VObj ps =>
      "{" ++ String.concat ","
               ((fix members (ps : list (string * value)) : list string :=
                   match ps with
                   | [] => []
                   | (k, x) :: r =>
                       match x with
                       | VUndefined => members r
                       | _ => (json_quote k ++ ":" ++ json_text x) :: members r
                       end
                   end) ps) ++ "}"
  end.

(** [`${JSON.stringify(v)}`]. *)
Definition JSON_stringify (v : value) : string :=
  match v with
  | VUndefined => "undefined"
  | _ => json_text v
  end.

(** ** The plugin and its effects *)

Inductive level : Type := Notice | Warning | Error.

(** [new InvokeCommand({ FunctionName, Payload })]; the payload is the JSON
    text handed to [TextEncoder]. *)
Record InvokeCommand : Type := {
  FunctionName : value;
  Payload : string
}.

Record InvokeCommandOutput : Type := {
  StatusCode : option Z
}.

(** What [await this.lambdaClient.send(command)] gives. *)
Inductive send_result : Type :=
| Fulfilled (output : InvokeCommandOutput)
| Failed (reason : value).

Definition LambdaClient := InvokeCommand -> send_result.

(** The mutable part of the plugin, with the lines logged and the commands
    sent so far (oldest first). *)
Record plugin : Type := {
  queueHandlers : obj;
  logged : list (level * string);
  sent : list InvokeCommand
}.

Definition new_plugin : plugin :=
  {| queueHandlers := []; logged := []; sent := [] |}.

Definition M (A : Type) : Type := plugin -> completion A * plugin.

Definition ret {A} (a : A) : M A := fun p => (Normal a, p).

Definition bind {A B} (m : M A) (k : A -> M B) : M B :=
  fun p =>
    match m p with
    | (Normal a, p') => k a p'
    | (Throw e, p') => (Throw e, p')
    end.

Notation "x <- m ;; k" := (bind m (fun x => k))
  (at level 61, m at next level, right associativity).
Notation "m ;;; k" := (bind m (fun _ => k))
  (at level 61, right associativity).

Definition lift {A} (c : completion A) : M A := fun p => (c, p).

Definition log (l : level) (msg : string) : M unit :=
  fun p => (Normal tt,
            {| queueHandlers := queueHandlers p;
               logged := logged p ++ [(l, msg)];
               sent := sent p |}).

(** [this.queueHandlers.hasOwnProperty(k)]. *)
Definition handlers_hasOwnProperty (k : string) : M bool :=
  fun p => (hasOwnProperty (VObj (queueHandlers p)) k, p).

(** [this.queueHandlers[k]]. *)
Definition handlers_get (k : string) : M value :=
  fun p => (Get (VObj (queueHandlers p)) k, p).

(** [this.queueHandlers[k] = v]. *)
Definition handlers_set (k : string) (v : value) : M unit :=
  fun p => (Normal tt,
            {| queueHandlers := assign k v (queueHandlers p);
               logged := logged p;
               sent := sent p |}).

(** [await this.lambdaClient.send(command)]. *)
Definition send (client : LambdaClient) (command : InvokeCommand)
  : M InvokeCommandOutput :=
  fun p =>
    let p' := {| queueHandlers := queueHandlers p;
                 logged := logged p;
                 sent := sent p ++ [command] |} in
    match client command with
    | Fulfilled output => (Normal output, p')
    | Failed reason => (Throw (Rejected reason), p')
    end.

(** A [for] loop over a list; [continue] is the normal end of the body. *)
Fixpoint for_of {A} (l : list A) (body : A -> M unit) : M unit :=
  match l with
  | [] => ret tt
  | x :: r => body x ;;; for_of r body
  end.

(** ** [start]: the resolver *)

(** The configuration the loader hands over:
    [this.serverless.service.resources] and
    [this.serverless.service.functions]. *)
Record service : Type := {
  resources : value;
  functions : value
}.

(** One turn of the loop over [Object.entries(resources)]. *)
Definition declare_queue (entry : string * value) : M unit :=
  let '(name, resource) := entry in
  type <- lift (Get resource "Type") ;;
  if negb (loose_eq_str type "AWS::SQS::Queue") then ret tt
  else
    properties <- lift (Get resource "Properties") ;;
    if negb (opt_hasOwnProperty properties "QueueName") then
      log Error ("Queue '" ++ name ++ "' is missing QueueName property")
    else
      queueName <- lift (Get properties "QueueName") ;;
      known <- handlers_hasOwnProperty (ToString queueName) ;;
      if known then
        log Warning ("Found multiple queues with name: '" ++ ToString queueName
                     ++ "'. Only using first definition.")
      else handlers_set (ToString queueName) VNull.

(** [arn.hasOwnProperty('Fn::GetAtt') && arn['Fn::GetAtt'].length == 2
     && arn['Fn::GetAtt'][1] == 'Arn']. *)
Definition is_GetAtt_Arn (arn : value) : completion bool :=
  match hasOwnProperty arn "Fn::GetAtt" with
  | Throw e => Throw e
  | Normal false => Normal false
  | Normal true =>
      match Get arn "Fn::GetAtt" with
      | Throw e => Throw e
      | Normal getAtt =>
          match Get getAtt "length" with
          | Throw e => Throw e
          | Normal len =>
              if negb (loose_eq_num len 2) then Normal false
              else match Get getAtt "1" with
                   | Throw e => Throw e
                   | Normal attribute => Normal (loose_eq_str attribute "Arn")
                   end
          end
      end
  end.

(** The queue name of an [sqs] event, or [None] where the loop body says
    [continue].  The first branch of the match is [typeof sqs.arn ==
    'string']. *)
Definition resolve_queue_name (resources sqs : value) : M (option value) :=
  arn <- lift (Get sqs "arn") ;;
  match arn with
  | VStr s => ret (Some (at_last (split ":" s)))
  | _ =>
      getAtt_Arn <- lift (is_GetAtt_Arn arn) ;;
      if getAtt_Arn then
        getAtt <- lift (Get arn "Fn::GetAtt") ;;
        resourceName <- lift (Get getAtt "0") ;;
        resource <- lift (Get resources (ToString resourceName)) ;;
        if negb (truthy resource) then
          log Error ("Unknown resource: " ++ ToString resourceName) ;;;
          ret None
        else
          properties <- lift (Get resource "Properties") ;;
          if negb (opt_hasOwnProperty properties "QueueName") then
            log Error ("Resource '" ++ ToString resourceName
                       ++ "' is missing QueueName property") ;;;
            ret None
          else
            queueName <- lift (Get properties "QueueName") ;;
            ret (Some queueName)
      else
        log Error ("Unknown SQS ARN format: " ++ JSON_stringify arn) ;;;
        ret None
  end.

(** The end of the inner loop body: the handler of a resolved queue. *)
Definition assign_handler (name : string) (definition queueName : value) : M unit :=
  known <- handlers_hasOwnProperty (ToString queueName) ;;
  if negb known then
    log Warning ("Unknown SQS queue '" ++ ToString queueName
                 ++ "' for function '" ++ name ++ "'")
  else
    handler <- handlers_get (ToString queueName) ;;
    if negb (nullish handler) then
      log Warning ("Queue '" ++ ToString queueName
                   ++ "' already has handler configured. Only using "
                   ++ ToString handler ++ ".")
    else
      functionName <- lift (Get definition "name") ;;
      handlers_set (ToString queueName) functionName.

(** One turn of the loop over [definition.events]. *)
Definition bind_event (resources : value) (name : string) (definition event : value)
  : M unit :=
  isSqs <- lift (hasOwnProperty event "sqs") ;;
  if negb isSqs then ret tt
  else
    sqs <- lift (Get event "sqs") ;;
    resolved <- resolve_queue_name resources sqs ;;
    match resolved with
    | None => ret tt
    | Some queueName => assign_handler name definition queueName
    end.

(** One turn of the loop over [Object.entries(functions)]. *)
Definition bind_function (resources : value) (entry : string * value) : M unit :=
  let '(name, definition) := entry in
  functionName <- lift (Get definition "name") ;;
  if nullish functionName then ret tt
  else
    events <- lift (Get definition "events") ;;
    eventList <- lift (iterate events) ;;
    for_of eventList (bind_event resources name definition).

Definition summary_line (entry : string * value) : M unit :=
  let '(queue, handler) := entry in
  log Notice ("           * " ++ queue ++ ": " ++ ToString handler).

(** [start()].  The call of [startHttp] installs the route [post_root]
    below and the listener; the listener's own notice is written by a
    callback that runs after [start] has returned. *)
Definition start (svc : service) : M unit :=
  log Notice "Starting Offline SQS invoke" ;;;
  resources <- lift (opt_Get (resources svc) "Resources") ;;
  if negb (truthy resources) then ret tt
  else
    resourceEntries <- lift (Object_entries resources) ;;
    for_of resourceEntries declare_queue ;;;
    functionEntries <- lift (Object_entries (functions svc)) ;;
    for_of functionEntries (bind_function resources) ;;;
    log Notice "Queues available for local testing:" ;;;
    handlers <- (fun p => (Normal (queueHandlers p), p)) ;;
    for_of handlers summary_line.

(** ** [onMessage] and the route of [startHttp] *)

(** The event handed to the function: the object literal [payload]. *)
Definition sqs_event (messageBody queueName : value) : value :=
  VObj [("Records",
         VArr [VObj [("messageId", VStr "00000000-0000-0000-0000-000000000000");
                     ("receiptHandle", VStr EmptyString);
                     ("body", messageBody);
                     ("attributes", VObj []);
                     ("messageAttributes", VObj []);
                     ("md5OfBody", VStr EmptyString);
                     ("eventSource", VStr "aws:sqs");
                     ("eventSourceARN",
                      VStr ("arn:aws:sqs:localhost:000000000000:" ++ ToString queueName));
                     ("awsRegion", VStr "localhost")]])].

(** [response.StatusCode != 200]. *)
Definition status_differs (response : InvokeCommandOutput) (n : Z) : bool :=
  match StatusCode response with
  | Some c => negb (c =? n)%Z
  | None => true
  end.

Definition onMessage (lambdaClient : LambdaClient) (body : value) : M bool :=
  queueUrl <- lift (Get body "QueueUrl") ;;
  if negb (truthy queueUrl) then
    log Warning "Missing QueueURL in SQS payload" ;;;
    ret false
  else
    messageBody <- lift (Get body "MessageBody") ;;
    if negb (truthy messageBody) then
      log Warning "Missing MessageBody in SQS payload" ;;;
      ret false
    else
      queueName <- lift (split_at_last queueUrl "/") ;;
      if negb (truthy queueName) then
        log Warning ("Missing queue name in queue url: " ++ ToString queueUrl) ;;;
        ret false
      else
        known <- handlers_hasOwnProperty (ToString queueName) ;;
        if negb known then
          log Warning ("Unknown queue name: " ++ ToString queueName) ;;;
          ret false
        else
          handler <- handlers_get (ToString queueName) ;;
          log Notice ("Invoking function '" ++ ToString handler
                      ++ "' from queue '" ++ ToString queueName ++ "'") ;;;
          let payload := sqs_event messageBody queueName in
          let payloadString := json_text payload in
          let command := {| FunctionName := handler; Payload := payloadString |} in
          response <- send lambdaClient command ;;
          if status_differs response 200 then
            (* the template literal prints the response object *)
            log Error "Error while invoking Lambda: [object Object]" ;;;
            ret false
          else ret true.

(** What the route handler sends: the status (200 unless set), the
    [Content-Type] the handler sets itself, and the argument of [send]. *)
Record response : Type := {
  status : Z;
  contentType : option string;
  sentBody : option string
}.

(** The handler of [POST /].  It is an async function: a normal
    completion is the response it sends, an abrupt one is a rejected
    promise, and the handler has sent nothing. *)
Definition post_root (lambdaClient : LambdaClient) (requestBody : value) : M response :=
  action <- lift (opt_Get requestBody "Action") ;;
  if negb (truthy action) then
    log Warning "Received SQS request without Action" ;;;
    ret {| status := 400; contentType := None;
           sentBody := Some "Missing Action query parameter" |}
  else if negb (loose_eq_str action "SendMessage") then
    log Warning ("Received unsupported SQS action: " ++ ToString action) ;;;
    ret {| status := 400; contentType := None;
           sentBody := Some "Only SendMessage actions are supported" |}
  else
    success <- onMessage lambdaClient requestBody ;;
    if negb success then
      ret {| status := 400; contentType := None; sentBody := None |}
    else
      ret {| status := 200; contentType := Some "text/xml";
             sentBody := Some "<SendMessageResponse></SendMessageResponse>" |}.

(** ** Vocabulary of the statements *)

(** [c] occurs in [s]. *)
Fixpoint occurs (c : ascii) (s : string) : bool :=
  match s with
  | EmptyString => false
  | String a r => Ascii.eqb a c || occurs c r
  end.

(** The state after some more log lines, everything else as in [p]. *)
Definition with_log (p : plugin) (lines : list (level * string)) : plugin :=
  {| queueHandlers := queueHandlers p;
     logged := logged p ++ lines;
     sent := sent p |}.


(** [resource] is a queue resource with the queue name [q]: its [Type] is
    [AWS::SQS::Queue] and its [Properties] hold [QueueName]. *)
Definition declares (resource : value) (q : string) : Prop :=
  exists (fs ps : obj) (type queueName : value),
    resource = VObj fs
    /\ lookup "Type" fs = Some type
    /\ loose_eq_str type "AWS::SQS::Queue" = true
    /\ lookup "Properties" fs = Some (VObj ps)
    /\ lookup "QueueName" ps = Some queueName
    /\ ToString queueName = q.




(** [Object.entries(v)], empty where it throws. *)
Definition entries_of (v : value) : obj :=
  match Object_entries v with
  | Normal entries => entries
  | Throw _ => []
  end.





(** [q] is the last piece of [url] cut at its slashes. *)
Definition final_segment (url q : string) : Prop :=
  occurs "/" q = false /\ (url = q \/ exists pre, url = pre ++ "/" ++ q).

(** The state after a dispatch that reached the Lambda client: some more
    log lines and one more command sent. *)
Definition with_dispatch (p : plugin) (lines : list (level * string))
           (command : InvokeCommand) : plugin :=
  {| queueHandlers := queueHandlers p;
     logged := logged p ++ lines;
     sent := sent p ++ [command] |}.

(** The command [onMessage] builds for a message body and a queue name,
    with the event written out. *)
Definition invoke_command (handler : value) (messageBody : value) (queueName : string)
  : InvokeCommand :=
  {| FunctionName := handler;
     Payload :=
       json_text
         (VObj [("Records",
                 VArr [VObj [("messageId", VStr "00000000-0000-0000-0000-000000000000");
                             ("receiptHandle", VStr EmptyString);
                             ("body", messageBody);
                             ("attributes", VObj []);
                             ("messageAttributes", VObj []);
                             ("md5OfBody", VStr EmptyString);
                             ("eventSource", VStr "aws:sqs");
                             ("eventSourceARN",
                              VStr ("arn:aws:sqs:localhost:000000000000:" ++ queueName));
                             ("awsRegion", VStr "localhost")]])]) |}.

Definition invoking_line (handler : value) (queueName : string) : level * string :=
  (Notice, "Invoking function '" ++ ToString handler
           ++ "' from queue '" ++ queueName ++ "'").

Definition bad_request (text : option string) : response :=
  {| status := 400; contentType := None; sentBody := text |}.

Definition send_message_response : response :=
  {| status := 200; contentType := Some "text/xml";
     sentBody := Some "<SendMessageResponse></SendMessageResponse>" |}.

(** ** Sample data *)

Definition orders_handlers : plugin :=
  {| queueHandlers := [("orders", VStr "shop-dev-worker"); ("mail", VNull)];
     logged := [];
     sent := [] |}.

Definition send_hello : obj :=
  [("Action", VStr "SendMessage");
   ("QueueUrl", VStr "http://localhost:3003/000000000000/orders");
   ("MessageBody", VStr "hello")].

Definition accepting_client : LambdaClient :=
  fun _ => Fulfilled {| StatusCode := Some 200%Z |}.




Definition queue_resource (queueName : string) : value :=
  VObj [("Type", VStr "AWS::SQS::Queue");
        ("Properties", VObj [("QueueName", VStr queueName)])].

Definition sqs_event_binding (arn : value) : value :=
  VObj [("sqs", VObj [("arn", arn)])].

Definition GetAtt_Arn (resourceName : string) : value :=
  VObj [("Fn::GetAtt", VArr [VStr resourceName; VStr "Arn"])].

Definition orders_arn : value := VStr "arn:aws:sqs:localhost:000000000000:orders".


(** Two declarations of one queue name, a queue without name, and
    bindings of every kind. *)
Definition sample_service : service :=
  {| resources :=
       VObj [("Resources",
              VObj [("OrdersQueue", queue_resource "orders");
                    ("OrdersAgain", queue_resource "orders");
                    ("Nameless", VObj [("Type", VStr "AWS::SQS::Queue")]);
                    ("Table", VObj [("Type", VStr "AWS::DynamoDB::Table")]);
                    ("MailQueue", queue_resource "mail")])];
     functions :=
       VObj [("worker",
              VObj [("name", VStr "shop-dev-worker");
                    ("events",
                     VArr [sqs_event_binding orders_arn;
                           sqs_event_binding (GetAtt_Arn "MailQueue");
                           sqs_event_binding (GetAtt_Arn "Nameless");
                           sqs_event_binding (GetAtt_Arn "Missing");
                           sqs_event_binding (VObj [("Fn::ImportValue", VStr "QueueArn")]);
                           VObj [("http", VObj [("path", VStr "/")])]])]);
             ("second",
              VObj [("name", VStr "shop-dev-second");
                    ("events", VArr [sqs_event_binding (GetAtt_Arn "OrdersQueue");
                                     sqs_event_binding (VStr "undeclared")])]);
             ("idle", VObj [("name", VStr "shop-dev-idle"); ("events", VArr [])])] |}.

(** Functions that bind a queue by a literal ARN, and a definition that
    is [null], in a service without resources. *)
Definition service_without_resources : service :=
  {| resources := VUndefined;
     functions :=
       VObj [("worker", VObj [("name", VStr "shop-dev-worker");
                              ("events", VArr [sqs_event_binding orders_arn])]);
             ("broken", VNull)] |}.

(** A request whose [QueueUrl] the extended parser made an array. *)
Definition send_to_array : obj :=
  [("Action", VStr "SendMessage");
   ("QueueUrl", VArr [VStr "http://localhost:3003/000000000000/orders"]);
   ("MessageBody", VStr "hello")].

(** [Object.entries(functions)] as [start] scans it. *)
Definition function_entries (svc : service) : obj := entries_of (functions svc).

(** The line of the closing summary for one entry of the handlers. *)
Definition summary_of (entry : string * value) : level * string :=
  (Notice, "           * " ++ fst entry ++ ": " ++ ToString (snd entry)).

(** The queue [K] has a handler in [o]. *)
Definition assigned (K : string) (o : obj) : Prop :=
  exists handler, lookup K o = Some handler /\ nullish handler = false.

(** [s] ends with the character [c]. *)
Definition ends_with (c : ascii) (s : string) : Prop :=
  exists pre, s = pre ++ String c EmptyString.

(** * Properties *)

(** ** Strings and objects *)

Lemma split_not_nil (c : ascii) (s : string) : split c s <> [].
Proof.
  destruct s as [|a r]; simpl; [discriminate|].
  destruct (Ascii.eqb a c); [discriminate|].
  destruct (split c r); discriminate.
Qed.

Lemma split_app (c : ascii) (pre rest : string) :
  split c (pre ++ String c rest) = (split c pre ++ split c rest)%list.
Proof.
  induction pre as [|a pre IH]; simpl.
  - now rewrite Ascii.eqb_refl.
  - destruct (Ascii.eqb a c); [now rewrite IH|].
    rewrite IH. pose proof (split_not_nil c pre) as Hne.
    destruct (split c pre); [contradiction|reflexivity].
Qed.

Lemma split_no_sep (c : ascii) (s : string) :
  occurs c s = false -> split c s = [s].
Proof.
  induction s as [|a r IH]; simpl; [reflexivity|].
  intros H. apply orb_false_iff in H as [Ha Hr].
  now rewrite Ha, (IH Hr).
Qed.

Lemma last_app_cons {A} (l : list A) (x : A) (r : list A) (d : A) :
  last (l ++ x :: r)%list d = last (x :: r) d.
Proof.
  induction l as [|y l IH]; [reflexivity|].
  rewrite <- IH.
  change ((y :: l) ++ x :: r)%list with (y :: (l ++ x :: r))%list.
  destruct (l ++ x :: r)%list eqn:E; [|reflexivity].
  destruct l; discriminate.
Qed.

(** The last piece of a split string is what follows the last separator. *)
Lemma at_last_split (c : ascii) (pre q : string) :
  occurs c q = false ->
  at_last (split c (pre ++ String c q)) = VStr q.
Proof.
  intros H. unfold at_last.
  rewrite split_app, (split_no_sep c q H), map_app. simpl.
  now rewrite last_app_cons.
Qed.

Lemma at_last_split_whole (c : ascii) (s : string) :
  occurs c s = false -> at_last (split c s) = VStr s.
Proof.
  intros H. unfold at_last. now rewrite (split_no_sep c s H).
Qed.

Lemma lookup_assign_same (k : string) (v : value) (o : obj) :
  lookup k (assign k v o) = Some v.
Proof.
  induction o as [|[k' v'] o IH]; simpl.
  - now rewrite String.eqb_refl.
  - destruct (k' =? k) eqn:E; simpl; now rewrite E.
Qed.

Lemma lookup_assign_other (k k' : string) (v : value) (o : obj) :
  k <> k' -> lookup k' (assign k v o) = lookup k' o.
Proof.
  intros Hne. induction o as [|[k0 v0] o IH]; simpl.
  - apply String.eqb_neq in Hne. now rewrite Hne.
  - destruct (k0 =? k) eqn:E; simpl.
    + apply String.eqb_eq in E. subst k0.
      apply String.eqb_neq in Hne. now rewrite Hne.
    + now rewrite IH.
Qed.

Lemma keys_assign_known (k : string) (v : value) (o : obj) :
  lookup k o <> None -> keys (assign k v o) = keys o.
Proof.
  induction o as [|[k' v'] o IH]; simpl; [congruence|].
  destruct (k' =? k) eqn:E; simpl; [reflexivity|].
  intros H. now rewrite (IH H).
Qed.

Lemma assign_fresh (k : string) (v : value) (o : obj) :
  lookup k o = None -> assign k v o = (o ++ [(k, v)])%list.
Proof.
  induction o as [|[k' v'] o IH]; simpl; [reflexivity|].
  destruct (k' =? k) eqn:E; [discriminate|].
  intros H. now rewrite (IH H).
Qed.

Lemma lookup_None_keys (k : string) (o : obj) :
  lookup k o = None <-> ~ In k (keys o).
Proof.
  induction o as [|[k' v'] o IH]; simpl; [tauto|].
  destruct (k' =? k) eqn:E.
  - apply String.eqb_eq in E. split; [discriminate|tauto].
  - apply String.eqb_neq in E. rewrite IH. tauto.
Qed.

Lemma final_segment_at_last (url q : string) :
  final_segment url q -> at_last (split "/" url) = VStr q.
Proof.
  intros [Hq [->|[pre ->]]].
  - now apply at_last_split_whole.
  - change (pre ++ "/" ++ q) with (pre ++ String "/" q). now apply at_last_split.
Qed.

Lemma final_segment_nonempty (url q : string) :
  final_segment url q -> q <> EmptyString -> url <> EmptyString.
Proof.
  intros [_ [->|[pre ->]]] Hq; [exact Hq|]. destruct pre; discriminate.
Qed.

(** ** Loops and sequencing *)

Lemma bind_state {A B} (m : M A) (k : A -> M B) (p : plugin) :
  (exists e, fst (m p) = Throw e /\ bind m k p = (Throw e, snd (m p)))
  \/ (exists a, fst (m p) = Normal a /\ bind m k p = k a (snd (m p))).
Proof.
  unfold bind. destruct (m p) as [[a|e] p']; simpl; eauto.
Qed.

(** A property of the state that every step keeps is kept by the sequence,
    however it ends. *)
Lemma bind_keeps {A B} (I : plugin -> Prop) (m : M A) (k : A -> M B) (p : plugin) :
  I (snd (m p)) ->
  (forall a p', I p' -> I (snd (k a p'))) ->
  I (snd (bind m k p)).
Proof.
  intros Hm Hk.
  destruct (bind_state m k p) as [[e [_ E]]|[a [_ E]]]; rewrite E; auto.
Qed.

Lemma for_of_keeps {A} (I : plugin -> Prop) (l : list A) (body : A -> M unit) :
  (forall x p, In x l -> I p -> I (snd (body x p))) ->
  forall p, I p -> I (snd (for_of l body p)).
Proof.
  induction l as [|x l IH]; intros Hbody p Hp; [exact Hp|].
  simpl for_of. apply bind_keeps.
  - apply Hbody; [now left|exact Hp].
  - intros _ p' Hp'. apply IH; [|exact Hp'].
    intros y q Hy. apply Hbody. now right.
Qed.

Lemma for_of_cons {A} (x : A) (l : list A) (body : A -> M unit) :
  for_of (x :: l) body = (body x ;;; for_of l body).
Proof. reflexivity. Qed.


(** A property key that is not a decimal numeral is no array index. *)
Lemma index_of_key_not_numeral (k : string) (len : nat) :
  NilZero.uint_of_string k = None -> index_of_key k len = None.
Proof.
  intros Hk. unfold index_of_key.
  destruct (find _ (seq 0 len)) as [i|] eqn:E; [|reflexivity].
  apply find_some in E as [_ E]. apply String.eqb_eq in E.
  unfold string_of_nat in E. subst k.
  destruct (NilZero.usu_gen (Nat.to_uint i)); congruence.
Qed.

(** ** Resolution of a queue reference *)

(** C7. A queue trigger whose [arn] is a literal string resolves to the
    piece of that string after its last colon (to the whole string when it
    has no colon), without logging; the literal
    [arn:aws:sqs:localhost:000000000000:orders] resolves to [orders]. *)
Theorem literal_arn_resolves_to_trailing_segment :
  (forall (resources sqs : value) (pre q : string) (p : plugin),
      Get sqs "arn" = Normal (VStr (pre ++ ":" ++ q)) ->
      occurs ":" q = false ->
      resolve_queue_name resources sqs p = (Normal (Some (VStr q)), p))
  /\ (forall (resources sqs : value) (s : string) (p : plugin),
      Get sqs "arn" = Normal (VStr s) ->
      occurs ":" s = false ->
      resolve_queue_name resources sqs p = (Normal (Some (VStr s)), p))
  /\ (forall (resources : value) (p : plugin),
      resolve_queue_name resources
        (VObj [("arn", VStr "arn:aws:sqs:localhost:000000000000:orders")]) p
      = (Normal (Some (VStr "orders")), p)).
Proof.
  split; [|split].
  - intros resources sqs pre q p Harn Hq.
    unfold resolve_queue_name, bind, lift, ret. rewrite Harn.
    change (pre ++ ":" ++ q) with (pre ++ String ":" q).
    now rewrite (at_last_split ":" pre q Hq).
  - intros resources sqs s p Harn Hs.
    unfold resolve_queue_name, bind, lift, ret. rewrite Harn.
    now rewrite (at_last_split_whole ":" s Hs).
  - intros resources p. reflexivity.
Qed.





(** ** Declaration of the queues *)


Lemma opt_hasOwnProperty_not_numeral (o : value) (k : string) :
  NilZero.uint_of_string k = None ->
  (k =? "length") = false ->
  opt_hasOwnProperty o k = true ->
  exists ps v, o = VObj ps /\ lookup k ps = Some v.
Proof.
  intros Hk Hl. unfold opt_hasOwnProperty.
  destruct o; simpl; try discriminate.
  - now rewrite Hl, (index_of_key_not_numeral k _ Hk).
  - now rewrite Hl, (index_of_key_not_numeral k _ Hk).
  - destruct (lookup k props) as [v|] eqn:E; [|discriminate]. eauto.
Qed.

(** What one declaration does to the handlers: nothing, or the
    registration of the queue it declares, which was not registered. *)
Lemma declare_queue_effect (entry : string * value) (p : plugin) :
  queueHandlers (snd (declare_queue entry p)) = queueHandlers p
  \/ exists q, declares (snd entry) q
               /\ lookup q (queueHandlers p) = None
               /\ queueHandlers (snd (declare_queue entry p))
                  = (queueHandlers p ++ [(q, VNull)])%list.
Proof.
  destruct entry as [name resource].
  remember (declare_queue (name, resource) p) as r eqn:Er.
  unfold declare_queue in Er.
  destruct resource as [| |b|n|s|l|fs];
    try (left; subst r; unfold bind, lift; simpl;
         rewrite ?(index_of_key_not_numeral "Type" _ eq_refl); reflexivity).
  unfold bind at 1 in Er. unfold lift at 1 in Er. simpl Get in Er.
  destruct (lookup "Type" fs) as [type|] eqn:EType; [|subst r; now left].
  destruct (loose_eq_str type "AWS::SQS::Queue") eqn:Eq; cbn [negb] in Er;
    [|subst r; now left].
  unfold bind at 1 in Er. unfold lift at 1 in Er. simpl Get in Er.
  destruct (lookup "Properties" fs) as [properties|] eqn:EProps;
    [|subst r; now left].
  destruct (opt_hasOwnProperty properties "QueueName") eqn:Eh; cbn [negb] in Er;
    [|subst r; now left].
  destruct (opt_hasOwnProperty_not_numeral properties "QueueName" eq_refl eq_refl Eh)
    as [ps [queueName [-> Hqn]]].
  unfold bind, lift, handlers_hasOwnProperty, handlers_set in Er. simpl in Er.
  rewrite Hqn in Er.
  destruct (lookup (ToString queueName) (queueHandlers p)) eqn:El;
    [subst r; now left|].
  right. exists (ToString queueName). split; [|split; [exact El|]].
  - exists fs, ps, type, queueName. auto 10.
  - subst r. simpl. now apply assign_fresh.
Qed.










(** ** Assignment of the handlers *)

(** Resolving a reference writes to the log alone. *)
Lemma resolve_queue_name_handlers (resources sqs : value) (p : plugin) :
  queueHandlers (snd (resolve_queue_name resources sqs p)) = queueHandlers p.
Proof.
  unfold resolve_queue_name.
  apply (bind_keeps (fun p' => queueHandlers p' = queueHandlers p));
    [reflexivity|].
  intros arn p1 H1.
  assert (Hrest : forall a,
    queueHandlers (snd ((getAtt_Arn <- lift (is_GetAtt_Arn a) ;;
      if getAtt_Arn then
        getAtt <- lift (Get a "Fn::GetAtt") ;;
        resourceName <- lift (Get getAtt "0") ;;
        resource <- lift (Get resources (ToString resourceName)) ;;
        if negb (truthy resource) then
          log Error ("Unknown resource: " ++ ToString resourceName) ;;;
          ret None
        else
          properties <- lift (Get resource "Properties") ;;
          if negb (opt_hasOwnProperty properties "QueueName") then
            log Error ("Resource '" ++ ToString resourceName
                       ++ "' is missing QueueName property") ;;;
            ret None
          else
            queueName <- lift (Get properties "QueueName") ;;
            ret (Some queueName)
      else
        log Error ("Unknown SQS ARN format: " ++ JSON_stringify a) ;;;
        ret None) p1)) = queueHandlers p).
  { intros a.
    apply (bind_keeps (fun p' => queueHandlers p' = queueHandlers p));
      [exact H1|].
    intros [|] p2 H2.
    - apply (bind_keeps (fun p' => queueHandlers p' = queueHandlers p));
        [exact H2|].
      intros getAtt p3 H3.
      apply (bind_keeps (fun p' => queueHandlers p' = queueHandlers p));
        [exact H3|].
      intros resourceName p4 H4.
      apply (bind_keeps (fun p' => queueHandlers p' = queueHandlers p));
        [exact H4|].
      intros resource p5 H5.
      destruct (negb (truthy resource)).
      + apply (bind_keeps (fun p' => queueHandlers p' = queueHandlers p));
          [exact H5|]. intros _ p6 H6. exact H6.
      + apply (bind_keeps (fun p' => queueHandlers p' = queueHandlers p));
          [exact H5|].
        intros properties p6 H6.
        destruct (negb (opt_hasOwnProperty properties "QueueName")).
        * apply (bind_keeps (fun p' => queueHandlers p' = queueHandlers p));
            [exact H6|]. intros _ p7 H7. exact H7.
        * apply (bind_keeps (fun p' => queueHandlers p' = queueHandlers p));
            [exact H6|]. intros queueName p7 H7. exact H7.
    - apply (bind_keeps (fun p' => queueHandlers p' = queueHandlers p));
        [exact H2|]. intros _ p3 H3. exact H3. }
  destruct arn; try apply Hrest. exact H1.
Qed.

(** What the end of the loop body does to the handlers: nothing, or the
    first assignment of a registered queue. *)
Lemma assign_handler_effect (name : string) (definition queueName : value)
      (p : plugin) :
  queueHandlers (snd (assign_handler name definition queueName p)) = queueHandlers p
  \/ exists handler functionName,
       lookup (ToString queueName) (queueHandlers p) = Some handler
       /\ nullish handler = true
       /\ Get definition "name" = Normal functionName
       /\ queueHandlers (snd (assign_handler name definition queueName p))
          = assign (ToString queueName) functionName (queueHandlers p).
Proof.
  remember (assign_handler name definition queueName p) as r eqn:Er.
  unfold assign_handler, bind, lift, handlers_hasOwnProperty, handlers_get,
    handlers_set in Er.
  simpl in Er.
  destruct (lookup (ToString queueName) (queueHandlers p)) as [handler|] eqn:El;
    simpl in Er; [|subst r; left; reflexivity].
  rewrite El in Er.
  destruct (nullish handler) eqn:En; simpl in Er; [|subst r; left; reflexivity].
  destruct (Get definition "name") as [functionName|e] eqn:Ename;
    [|subst r; left; reflexivity].
  right. exists handler, functionName. subst r. auto.
Qed.

Section HandlerInvariant.

(** A property [I] of the handlers that is kept by the first assignment of
    a queue to a name of [N]. *)
Variable I : obj -> Prop.
Variable N : value -> Prop.
Hypothesis assignment_keeps :
  forall (o : obj) (q : string) (handler functionName : value),
    I o -> lookup q o = Some handler -> nullish handler = true ->
    N functionName ->
    I (assign q functionName o).

Lemma assign_handler_keeps (name : string) (definition queueName : value)
      (p : plugin) :
  (forall functionName, Get definition "name" = Normal functionName -> N functionName) ->
  I (queueHandlers p) ->
  I (queueHandlers (snd (assign_handler name definition queueName p))).
Proof.
  intros HN Hp.
  destruct (assign_handler_effect name definition queueName p)
    as [E|[handler [functionName [Hl [Hn [Hname E]]]]]]; rewrite E; eauto.
Qed.

Lemma bind_event_keeps (resources : value) (name : string)
      (definition event : value) (p : plugin) :
  (forall functionName, Get definition "name" = Normal functionName -> N functionName) ->
  I (queueHandlers p) ->
  I (queueHandlers (snd (bind_event resources name definition event p))).
Proof.
  intros HN Hp. unfold bind_event.
  apply (bind_keeps (fun p' => I (queueHandlers p'))); [exact Hp|].
  intros [|] p1 H1; [|exact H1]. cbn [negb].
  apply (bind_keeps (fun p' => I (queueHandlers p'))); [exact H1|].
  intros sqs p2 H2.
  apply (bind_keeps (fun p' => I (queueHandlers p'))).
  - now rewrite resolve_queue_name_handlers.
  - intros [queueName|] p3 H3; [|exact H3].
    now apply assign_handler_keeps.
Qed.

Lemma bind_function_keeps (resources : value) (name : string)
      (definition : value) (p : plugin) :
  (forall functionName,
      Get definition "name" = Normal functionName ->
      nullish functionName = false -> N functionName) ->
  I (queueHandlers p) ->
  I (queueHandlers (snd (bind_function resources (name, definition) p))).
Proof.
  intros HN Hp. unfold bind_function.
  unfold bind at 1. unfold lift at 1.
  destruct (Get definition "name") as [functionName|e] eqn:Ename; [|exact Hp].
  destruct (nullish functionName) eqn:Enull; [exact Hp|].
  apply (bind_keeps (fun p' => I (queueHandlers p'))); [exact Hp|].
  intros events p2 H2.
  apply (bind_keeps (fun p' => I (queueHandlers p'))); [exact H2|].
  intros eventList p3 H3.
  apply (for_of_keeps (fun p' => I (queueHandlers p'))); [|exact H3].
  intros event q _ Hq. apply bind_event_keeps; [|exact Hq].
  intros fn Hfn. apply HN; congruence.
Qed.

Lemma bind_functions_keep (resources : value) (entries : obj) (p : plugin) :
  (forall name definition functionName,
      In (name, definition) entries ->
      Get definition "name" = Normal functionName ->
      nullish functionName = false -> N functionName) ->
  I (queueHandlers p) ->
  I (queueHandlers (snd (for_of entries (bind_function resources) p))).
Proof.
  intros HN Hp.
  apply (for_of_keeps (fun p' => I (queueHandlers p'))); [|exact Hp].
  intros [name definition] q Hin Hq. apply bind_function_keeps; [|exact Hq].
  intros fn. now apply (HN name definition).
Qed.

End HandlerInvariant.



Lemma bind_event_resolved (resources : value) (name : string)
      (definition event sqs queueName : value) (p : plugin) :
  hasOwnProperty event "sqs" = Normal true ->
  Get event "sqs" = Normal sqs ->
  resolve_queue_name resources sqs p = (Normal (Some queueName), p) ->
  bind_event resources name definition event p
  = assign_handler name definition queueName p.
Proof.
  intros Hhas Hsqs Hres. unfold bind_event, bind, lift.
  rewrite Hhas. simpl. now rewrite Hsqs, Hres.
Qed.



(** ** Totality of the resolution *)


Lemma Get_normal (o : value) (k : string) :
  nullish o = false -> exists v, Get o k = Normal v.
Proof.
  intros Ho. destruct o; try discriminate; simpl; eauto.
  - destruct (k =? "length"); eauto.
    destruct (index_of_key k (String.length s)); eauto.
  - destruct (k =? "length"); eauto.
    destruct (index_of_key k (List.length elems)); eauto.
  - destruct (lookup k props); eauto.
Qed.

Lemma truthy_not_nullish (v : value) : truthy v = true -> nullish v = false.
Proof. now destruct v. Qed.






Lemma Object_entries_normal (v : value) :
  nullish v = false -> Object_entries v = Normal (entries_of v).
Proof. intros H. unfold entries_of. now destruct v. Qed.




(** ** Dispatch *)

Lemma truthy_nonempty (s : string) : s <> EmptyString -> truthy (VStr s) = true.
Proof.
  intros H. simpl. apply negb_true_iff. now apply String.eqb_neq.
Qed.

(** A message that passes the four checks of [onMessage] reaches the
    Lambda client once, and the answer of the client decides the rest. *)
Lemma onMessage_dispatch (client : LambdaClient) (fs : obj) (url q : string)
      (messageBody handler : value) (p : plugin) :
  lookup "QueueUrl" fs = Some (VStr url) ->
  final_segment url q ->
  q <> EmptyString ->
  lookup "MessageBody" fs = Some messageBody ->
  truthy messageBody = true ->
  lookup q (queueHandlers p) = Some handler ->
  onMessage client (VObj fs) p
  = match client (invoke_command handler messageBody q) with
    | Fulfilled output =>
        if status_differs output 200 then
          (Normal false,
           with_dispatch p [invoking_line handler q;
                            (Error, "Error while invoking Lambda: [object Object]")]
                         (invoke_command handler messageBody q))
        else
          (Normal true,
           with_dispatch p [invoking_line handler q]
                         (invoke_command handler messageBody q))
    | Failed reason =>
        (Throw (Rejected reason),
         with_dispatch p [invoking_line handler q]
                       (invoke_command handler messageBody q))
    end.
Proof.
  intros Hurl Hq Hne Hbody Htruthy Hhandler.
  assert (Hu : truthy (VStr url) = true).
  { apply truthy_nonempty. now apply (final_segment_nonempty url q). }
  unfold onMessage.
  unfold bind at 1. unfold lift at 1. simpl Get. rewrite Hurl, Hu. cbn [negb].
  unfold bind at 1. unfold lift at 1. simpl Get. rewrite Hbody, Htruthy. cbn [negb].
  unfold bind at 1. unfold lift at 1. unfold split_at_last.
  rewrite (final_segment_at_last url q Hq).
  rewrite (truthy_nonempty q Hne). cbn [negb].
  unfold bind at 1. unfold handlers_hasOwnProperty at 1. simpl hasOwnProperty.
  simpl ToString. rewrite Hhandler. cbn [negb].
  unfold bind at 1. unfold handlers_get at 1. simpl Get. rewrite Hhandler.
  unfold bind at 1. unfold log at 1. cbv beta iota.
  unfold bind at 1. unfold send at 1. cbv beta iota zeta.
  unfold sqs_event. simpl ToString.
  change {| FunctionName := handler;
            Payload := json_text
              (VObj [("Records",
                 VArr [VObj [("messageId", VStr "00000000-0000-0000-0000-000000000000");
                             ("receiptHandle", VStr EmptyString);
                             ("body", messageBody);
                             ("attributes", VObj []);
                             ("messageAttributes", VObj []);
                             ("md5OfBody", VStr EmptyString);
                             ("eventSource", VStr "aws:sqs");
                             ("eventSourceARN",
                              VStr ("arn:aws:sqs:localhost:000000000000:" ++ q));
                             ("awsRegion", VStr "localhost")]])]) |}
    with (invoke_command handler messageBody q).
  destruct (client (invoke_command handler messageBody q)) as [output|reason];
    [|reflexivity].
  destruct (status_differs output 200); [|reflexivity].
  unfold bind, log, ret, with_dispatch. cbn [queueHandlers logged sent].
  now rewrite <- app_assoc.
Qed.

(** The route hands a [SendMessage] request to [onMessage] and turns its
    result into the response. *)
Lemma post_root_SendMessage (client : LambdaClient) (fs : obj) (p : plugin) :
  lookup "Action" fs = Some (VStr "SendMessage") ->
  post_root client (VObj fs) p
  = match onMessage client (VObj fs) p with
    | (Normal true, p') => (Normal send_message_response, p')
    | (Normal false, p') => (Normal (bad_request None), p')
    | (Throw e, p') => (Throw e, p')
    end.
Proof.
  intros Haction. unfold post_root.
  unfold bind at 1. unfold lift at 1. unfold opt_Get. simpl. rewrite Haction.
  simpl. unfold bind.
  destruct (onMessage client (VObj fs) p) as [[[|]|e] p']; reflexivity.
Qed.




(** The four early exits of [onMessage]. *)
Lemma onMessage_missing_url (client : LambdaClient) (fs : obj) (p : plugin) :
  truthy (match lookup "QueueUrl" fs with Some u => u | None => VUndefined end)
  = false ->
  onMessage client (VObj fs) p
  = (Normal false, with_log p [(Warning, "Missing QueueURL in SQS payload")]).
Proof.
  intros Hurl. unfold onMessage. unfold bind at 1. unfold lift at 1. simpl Get.
  destruct (lookup "QueueUrl" fs) as [u|]; rewrite Hurl; reflexivity.
Qed.

Lemma onMessage_missing_body (client : LambdaClient) (fs : obj) (queueUrl : value)
      (p : plugin) :
  lookup "QueueUrl" fs = Some queueUrl ->
  truthy queueUrl = true ->
  truthy (match lookup "MessageBody" fs with Some m => m | None => VUndefined end)
  = false ->
  onMessage client (VObj fs) p
  = (Normal false, with_log p [(Warning, "Missing MessageBody in SQS payload")]).
Proof.
  intros Hurl Htruthy Hbody. unfold onMessage.
  unfold bind at 1. unfold lift at 1. simpl Get. rewrite Hurl, Htruthy. cbn [negb].
  unfold bind at 1. unfold lift at 1. simpl Get.
  destruct (lookup "MessageBody" fs) as [m|]; rewrite Hbody; reflexivity.
Qed.

Lemma onMessage_missing_queue_name (client : LambdaClient) (fs : obj)
      (pre : string) (messageBody : value) (p : plugin) :
  lookup "QueueUrl" fs = Some (VStr (pre ++ "/")) ->
  lookup "MessageBody" fs = Some messageBody ->
  truthy messageBody = true ->
  onMessage client (VObj fs) p
  = (Normal false,
     with_log p [(Warning, "Missing queue name in queue url: " ++ pre ++ "/")]).
Proof.
  intros Hurl Hbody Htruthy.
  assert (Hu : truthy (VStr (pre ++ "/")) = true).
  { apply truthy_nonempty. destruct pre; discriminate. }
  unfold onMessage.
  unfold bind at 1. unfold lift at 1. simpl Get. rewrite Hurl, Hu. cbn [negb].
  unfold bind at 1. unfold lift at 1. simpl Get. rewrite Hbody, Htruthy. cbn [negb].
  unfold bind at 1. unfold lift at 1. unfold split_at_last.
  change (pre ++ "/") with (pre ++ String "/" EmptyString).
  rewrite (at_last_split "/" pre EmptyString eq_refl). reflexivity.
Qed.

Lemma onMessage_unknown_queue (client : LambdaClient) (fs : obj)
      (url q : string) (messageBody : value) (p : plugin) :
  lookup "QueueUrl" fs = Some (VStr url) ->
  final_segment url q ->
  q <> EmptyString ->
  lookup "MessageBody" fs = Some messageBody ->
  truthy messageBody = true ->
  lookup q (queueHandlers p) = None ->
  onMessage client (VObj fs) p
  = (Normal false, with_log p [(Warning, "Unknown queue name: " ++ q)]).
Proof.
  intros Hurl Hq Hne Hbody Htruthy Hunknown.
  assert (Hu : truthy (VStr url) = true).
  { apply truthy_nonempty. now apply (final_segment_nonempty url q). }
  unfold onMessage.
  unfold bind at 1. unfold lift at 1. simpl Get. rewrite Hurl, Hu. cbn [negb].
  unfold bind at 1. unfold lift at 1. simpl Get. rewrite Hbody, Htruthy. cbn [negb].
  unfold bind at 1. unfold lift at 1. unfold split_at_last.
  rewrite (final_segment_at_last url q Hq).
  rewrite (truthy_nonempty q Hne). cbn [negb].
  unfold bind at 1. unfold handlers_hasOwnProperty at 1. simpl hasOwnProperty.
  simpl ToString. rewrite Hunknown. reflexivity.
Qed.


(** C10. A [MessageBody] that is present and empty fails the check for a
    missing body: with a [QueueUrl] that passed its own check, the
    warning is the one for a missing body, [onMessage] returns false, the
    response is 400 and nothing is sent.  A [QueueUrl] that is present and
    empty fails the check for a missing queue URL in the same way. *)
Theorem empty_fields_count_as_missing :
  forall (client : LambdaClient) (fs : obj) (p : plugin),
    (forall queueUrl,
        lookup "MessageBody" fs = Some (VStr EmptyString) ->
        lookup "QueueUrl" fs = Some queueUrl ->
        truthy queueUrl = true ->
        onMessage client (VObj fs) p
        = (Normal false, with_log p [(Warning, "Missing MessageBody in SQS payload")])
        /\ (lookup "Action" fs = Some (VStr "SendMessage") ->
            post_root client (VObj fs) p
            = (Normal {| status := 400; contentType := None; sentBody := None |},
               with_log p [(Warning, "Missing MessageBody in SQS payload")])))
    /\ (lookup "QueueUrl" fs = Some (VStr EmptyString) ->
        onMessage client (VObj fs) p
        = (Normal false, with_log p [(Warning, "Missing QueueURL in SQS payload")])
        /\ (lookup "Action" fs = Some (VStr "SendMessage") ->
            post_root client (VObj fs) p
            = (Normal {| status := 400; contentType := None; sentBody := None |},
               with_log p [(Warning, "Missing QueueURL in SQS payload")])))
    /\ (lookup "MessageBody" fs = Some (VStr EmptyString) ->
        exists line,
          onMessage client (VObj fs) p = (Normal false, with_log p [(Warning, line)])).
Proof.
  intros client fs p. split; [|split].
  - intros queueUrl Hbody Hurl Htruthy.
    assert (E : onMessage client (VObj fs) p
                = (Normal false,
                   with_log p [(Warning, "Missing MessageBody in SQS payload")])).
    { apply (onMessage_missing_body client fs queueUrl p Hurl Htruthy).
      now rewrite Hbody. }
    split; [exact E|]. intros Haction.
    now rewrite (post_root_SendMessage client fs p Haction), E.
  - intros Hurl.
    assert (E : onMessage client (VObj fs) p
                = (Normal false,
                   with_log p [(Warning, "Missing QueueURL in SQS payload")])).
    { apply onMessage_missing_url. now rewrite Hurl. }
    split; [exact E|]. intros Haction.
    now rewrite (post_root_SendMessage client fs p Haction), E.
  - intros Hbody.
    destruct (truthy (match lookup "QueueUrl" fs with
                      | Some u => u
                      | None => VUndefined
                      end)) eqn:Eurl.
    + destruct (lookup "QueueUrl" fs) as [u|] eqn:Hurl; [|discriminate].
      eexists. apply (onMessage_missing_body client fs u p Hurl Eurl).
      now rewrite Hbody.
    + eexists. now apply onMessage_missing_url.
Qed.

(** ** The handlers are read-only after [start] *)






(** ** The theorems at sample inputs *)

Example sample_resolution :
  start sample_service new_plugin
  = (Normal tt,
     {| queueHandlers := [("orders", VStr "shop-dev-worker");
                          ("mail", VStr "shop-dev-worker")];
        logged :=
          [(Notice, "Starting Offline SQS invoke");
           (Warning, "Found multiple queues with name: 'orders'. Only using first definition.");
           (Error, "Queue 'Nameless' is missing QueueName property");
           (Error, "Resource 'Nameless' is missing QueueName property");
           (Error, "Unknown resource: Missing");
           (Error, "Unknown SQS ARN format: "
                   ++ json_text (VObj [("Fn::ImportValue", VStr "QueueArn")]));
           (Warning, "Queue 'orders' already has handler configured. Only using shop-dev-worker.");
           (Warning, "Unknown SQS queue 'undeclared' for function 'second'");
           (Notice, "Queues available for local testing:");
           (Notice, "           * orders: shop-dev-worker");
           (Notice, "           * mail: shop-dev-worker")];
        sent := [] |}).
Proof. vm_compute. reflexivity. Qed.

Example hello_payload :
  Payload (invoke_command (VStr "shop-dev-worker") (VStr "hello") "orders")
  = String.concat dquote
      ["{"; "Records"; ":[{"; "messageId"; ":";
       "00000000-0000-0000-0000-000000000000"; ","; "receiptHandle"; ":"; ""; ",";
       "body"; ":"; "hello"; ","; "attributes"; ":{},";
       "messageAttributes"; ":{},"; "md5OfBody"; ":"; ""; ",";
       "eventSource"; ":"; "aws:sqs"; ","; "eventSourceARN"; ":";
       "arn:aws:sqs:localhost:000000000000:orders"; ","; "awsRegion"; ":";
       "localhost"; "}]}"].
Proof. vm_compute. reflexivity. Qed.

Lemma literal_arn_witness :
  resolve_queue_name VUndefined
    (VObj [("arn", VStr "arn:aws:sqs:eu-west-1:123456789012:mail")]) new_plugin
  = (Normal (Some (VStr "mail")), new_plugin).
Proof.
  exact (proj1 literal_arn_resolves_to_trailing_segment VUndefined
           (VObj [("arn", VStr "arn:aws:sqs:eu-west-1:123456789012:mail")])
           "arn:aws:sqs:eu-west-1:123456789012" "mail" new_plugin
           eq_refl eq_refl).
Defined.









Lemma empty_fields_witness :
  post_root accepting_client
    (VObj [("Action", VStr "SendMessage");
           ("QueueUrl", VStr "http://localhost:3003/000000000000/orders");
           ("MessageBody", VStr EmptyString)])
    orders_handlers
  = (Normal {| status := 400; contentType := None; sentBody := None |},
     with_log orders_handlers [(Warning, "Missing MessageBody in SQS payload")])
  /\ post_root accepting_client
       (VObj [("Action", VStr "SendMessage");
              ("QueueUrl", VStr EmptyString);
              ("MessageBody", VStr "hello")])
       orders_handlers
     = (Normal {| status := 400; contentType := None; sentBody := None |},
        with_log orders_handlers [(Warning, "Missing QueueURL in SQS payload")]).
Proof.
  split.
  - destruct (empty_fields_count_as_missing accepting_client
                [("Action", VStr "SendMessage");
                 ("QueueUrl", VStr "http://localhost:3003/000000000000/orders");
                 ("MessageBody", VStr EmptyString)] orders_handlers)
      as (Hbody & _ & _).
    apply (proj2 (Hbody (VStr "http://localhost:3003/000000000000/orders")
                    eq_refl eq_refl eq_refl)).
    reflexivity.
  - destruct (empty_fields_count_as_missing accepting_client
                [("Action", VStr "SendMessage");
                 ("QueueUrl", VStr EmptyString);
                 ("MessageBody", VStr "hello")] orders_handlers)
      as (_ & Hurl & _).
    apply (proj2 (Hurl eq_refl)). reflexivity.
Defined.


(** * Further properties of [start] *)

(** ** What the scans leave alone *)

Lemma bind_normal {A B} (m : M A) (k : A -> M B) (p p' : plugin) (b : B) :
  bind m k p = (Normal b, p') ->
  exists a p1, m p = (Normal a, p1) /\ k a p1 = (Normal b, p').
Proof.
  unfold bind. destruct (m p) as [[a|e] p1]; [eauto|discriminate].
Qed.

(** A step of the resolver is a sequence of reads, log lines and handler
    assignments: a property of the state that those keep is kept. *)
Ltac frame_step :=
  match goal with
  | H : ?I ?p |- ?I (snd (lift _ ?p)) => exact H
  | H : ?I ?p |- ?I (snd (ret _ ?p)) => exact H
  | H : ?I ?p |- ?I ?p => exact H
  | |- _ (snd (bind _ _ _)) => apply bind_keeps; [|intros ? ? ?]
  | |- _ (snd (for_of _ _ _)) => apply for_of_keeps; [intros ? ? ? ?|]
  | |- _ (snd ((if ?b then _ else _) _)) => destruct b
  | |- _ (snd ((match ?x with Some _ => _ | None => _ end) _)) => destruct x
  | |- _ (snd ((let '(_, _) := ?e in _) _)) => destruct e
  end.

Section Frame.

(** A property [I] of the state that log lines and handler assignments
    keep. *)
Variable I : plugin -> Prop.
Hypothesis log_keeps :
  forall (l : level) (msg : string) (p : plugin), I p -> I (snd (log l msg p)).
Hypothesis handlers_set_keeps :
  forall (k : string) (v : value) (p : plugin), I p -> I (snd (handlers_set k v p)).

Ltac frame :=
  repeat first
    [ frame_step
    | match goal with
      | H : I ?p |- I (snd (handlers_hasOwnProperty _ ?p)) => exact H
      | H : I ?p |- I (snd (handlers_get _ ?p)) => exact H
      | |- I (snd (log _ _ _)) => apply log_keeps
      | |- I (snd (handlers_set _ _ _)) => apply handlers_set_keeps
      end ].

Lemma declare_queue_frame (entry : string * value) (p : plugin) :
  I p -> I (snd (declare_queue entry p)).
Proof.
  intros H. destruct entry as [name resource]. unfold declare_queue. frame.
Qed.

Lemma resolve_queue_name_frame (resources sqs : value) (p : plugin) :
  I p -> I (snd (resolve_queue_name resources sqs p)).
Proof.
  intros H. unfold resolve_queue_name.
  apply bind_keeps; [exact H|]. intros arn p1 H1.
  destruct arn; frame.
Qed.

Lemma assign_handler_frame (name : string) (definition queueName : value)
      (p : plugin) :
  I p -> I (snd (assign_handler name definition queueName p)).
Proof. intros H. unfold assign_handler. frame. Qed.

Lemma bind_event_frame (resources : value) (name : string)
      (definition event : value) (p : plugin) :
  I p -> I (snd (bind_event resources name definition event p)).
Proof.
  intros H. unfold bind_event.
  apply bind_keeps; [exact H|]. intros isSqs p1 H1.
  destruct (negb isSqs); [exact H1|].
  apply bind_keeps; [exact H1|]. intros sqs p2 H2.
  apply bind_keeps; [now apply resolve_queue_name_frame|].
  intros [queueName|] p3 H3; [|exact H3].
  now apply assign_handler_frame.
Qed.

Lemma bind_function_frame (resources : value) (entry : string * value)
      (p : plugin) :
  I p -> I (snd (bind_function resources entry p)).
Proof.
  intros H. destruct entry as [name definition]. unfold bind_function.
  apply bind_keeps; [exact H|]. intros functionName p1 H1.
  destruct (nullish functionName); [exact H1|].
  apply bind_keeps; [exact H1|]. intros events p2 H2.
  apply bind_keeps; [exact H2|]. intros eventList p3 H3.
  apply for_of_keeps; [|exact H3].
  intros event q _ Hq. now apply bind_event_frame.
Qed.

Lemma start_frame (svc : service) (p : plugin) :
  I p -> I (snd (start svc p)).
Proof.
  intros H. unfold start.
  apply bind_keeps; [now apply log_keeps|]. intros _ p1 H1.
  apply bind_keeps; [exact H1|]. intros resources p2 H2.
  destruct (negb (truthy resources)); [exact H2|].
  apply bind_keeps; [exact H2|]. intros resourceEntries p3 H3.
  apply bind_keeps.
  { apply for_of_keeps; [|exact H3].
    intros entry q _ Hq. now apply declare_queue_frame. }
  intros _ p4 H4.
  apply bind_keeps; [exact H4|]. intros functionEntries p5 H5.
  apply bind_keeps.
  { apply for_of_keeps; [|exact H5].
    intros entry q _ Hq. now apply bind_function_frame. }
  intros _ p6 H6.
  apply bind_keeps; [now apply log_keeps|]. intros _ p7 H7.
  apply bind_keeps; [exact H7|]. intros handlers p8 H8.
  apply for_of_keeps; [|exact H8].
  intros [queue handler] q _ Hq. unfold summary_line. now apply log_keeps.
Qed.

End Frame.

(** X6. [start] sends no command to the Lambda client and only appends
    to the log, on every configuration and however it ends. *)
Theorem start_sends_nothing :
  forall (svc : service) (p : plugin),
    sent (snd (start svc p)) = sent p
    /\ exists lines, logged (snd (start svc p)) = (logged p ++ lines)%list.
Proof.
  intros svc p. split.
  - apply (start_frame (fun p' => sent p' = sent p)); auto.
  - apply (start_frame (fun p' => exists lines, logged p' = (logged p ++ lines)%list)).
    + intros l msg q [lines Hq]. exists (lines ++ [(l, msg)])%list.
      simpl. now rewrite Hq, app_assoc.
    + intros k v q Hq. exact Hq.
    + exists []. now rewrite app_nil_r.
Qed.

(** ** A configuration without resources *)

Lemma start_without_resources (svc : service) (r : value) (p : plugin) :
  opt_Get (resources svc) "Resources" = Normal r ->
  truthy r = false ->
  start svc p = (Normal tt, with_log p [(Notice, "Starting Offline SQS invoke")]).
Proof.
  intros Hr Hfalsy. unfold start, bind, lift, log, with_log.
  rewrite Hr. simpl. now rewrite Hfalsy.
Qed.

(** X1. When the service has no [resources], or [resources] has no
    [Resources] property, [start] returns after its first notice: the
    functions are not scanned at all, so no handler is assigned and a
    malformed function definition raises nothing. *)
Theorem start_returns_early_without_resources :
  forall (svc : service) (p : plugin),
    (nullish (resources svc) = true
     \/ exists fs, resources svc = VObj fs /\ lookup "Resources" fs = None) ->
    start svc p = (Normal tt, with_log p [(Notice, "Starting Offline SQS invoke")]).
Proof.
  intros svc p [Hnull|[fs [Hres Hnone]]].
  - apply (start_without_resources svc VUndefined); [|reflexivity].
    unfold opt_Get. now rewrite Hnull.
  - apply (start_without_resources svc VUndefined); [|reflexivity].
    rewrite Hres. unfold opt_Get. simpl. now rewrite Hnone.
Qed.

(** ** The scan of the functions registers no queue *)

Lemma function_scan_keys (resources : value) (entries : obj) (p : plugin) :
  keys (queueHandlers (snd (for_of entries (bind_function resources) p)))
  = keys (queueHandlers p).
Proof.
  apply (bind_functions_keep (fun o => keys o = keys (queueHandlers p))
                             (fun _ => True)); auto.
  intros o q handler functionName Ho Hl _ _.
  rewrite keys_assign_known; [exact Ho|congruence].
Qed.



(** ** A run of [start] that ends normally *)

Lemma for_of_normal_split {A} (l : list A) (x : A) (body : A -> M unit)
      (p p' : plugin) :
  for_of l body p = (Normal tt, p') ->
  In x l ->
  exists l1 l2 p1 p2,
    l = (l1 ++ x :: l2)%list
    /\ for_of l1 body p = (Normal tt, p1)
    /\ body x p1 = (Normal tt, p2)
    /\ for_of l2 body p2 = (Normal tt, p').
Proof.
  revert p. induction l as [|y l IH]; intros p Hrun Hin; [contradiction|].
  rewrite for_of_cons in Hrun.
  apply bind_normal in Hrun as [[] [q [Hy Hrest]]].
  destruct Hin as [->|Hin].
  - exists [], l, p, q. auto.
  - destruct (IH q Hrest Hin) as (l1 & l2 & p1 & p2 & -> & H1 & Hx & H2).
    exists (y :: l1), l2, p1, p2. repeat split; auto.
    rewrite for_of_cons. unfold bind. now rewrite Hy.
Qed.

Lemma log_with_log (l : level) (msg : string) (p : plugin)
      (lines : list (level * string)) :
  log l msg (with_log p lines) = (Normal tt, with_log p (lines ++ [(l, msg)])).
Proof.
  unfold log, with_log. simpl. now rewrite app_assoc.
Qed.

Lemma summary_lines (o : obj) (p : plugin) (lines : list (level * string)) :
  for_of o summary_line (with_log p lines)
  = (Normal tt, with_log p (lines ++ map summary_of o)).
Proof.
  revert lines. induction o as [|[queue handler] o IH]; intros lines.
  - simpl. now rewrite app_nil_r.
  - rewrite for_of_cons. unfold bind, summary_line.
    rewrite log_with_log, IH. simpl map. now rewrite <- app_assoc.
Qed.

(** The three phases of a normal run over a configuration with resources. *)
Lemma start_phases (svc : service) (r : value) (p p' : plugin) :
  opt_Get (resources svc) "Resources" = Normal r ->
  truthy r = true ->
  start svc p = (Normal tt, p') ->
  exists p1 p2,
    for_of (entries_of r) declare_queue
           (with_log p [(Notice, "Starting Offline SQS invoke")])
    = (Normal tt, p1)
    /\ for_of (function_entries svc) (bind_function r) p1 = (Normal tt, p2)
    /\ p' = with_log p2 ((Notice, "Queues available for local testing:")
                         :: map summary_of (queueHandlers p2)).
Proof.
  intros Hr Htruthy Hrun. unfold start in Hrun.
  apply bind_normal in Hrun as [[] [q0 [Hlog Hrun]]].
  change (log Notice "Starting Offline SQS invoke" p)
    with (Normal tt, with_log p [(Notice, "Starting Offline SQS invoke")]) in Hlog.
  inversion Hlog; subst q0. clear Hlog.
  apply bind_normal in Hrun as [r' [q1 [Hget Hrun]]].
  unfold lift in Hget. rewrite Hr in Hget. inversion Hget; subst r' q1. clear Hget.
  rewrite Htruthy in Hrun. cbn [negb] in Hrun.
  apply bind_normal in Hrun as [entries [q2 [Hentries Hrun]]].
  unfold lift in Hentries.
  rewrite (Object_entries_normal r (truthy_not_nullish r Htruthy)) in Hentries.
  inversion Hentries; subst entries q2. clear Hentries.
  apply bind_normal in Hrun as [[] [p1 [Hdeclare Hrun]]].
  apply bind_normal in Hrun as [fentries [q3 [Hfentries Hrun]]].
  unfold lift in Hfentries.
  assert (Hf : fentries = function_entries svc /\ q3 = p1).
  { unfold function_entries, entries_of.
    destruct (Object_entries (functions svc)); inversion Hfentries; auto. }
  destruct Hf as [-> ->]. clear Hfentries.
  apply bind_normal in Hrun as [[] [p2 [Hbind Hrun]]].
  apply bind_normal in Hrun as [[] [q4 [Hlog Hrun]]].
  change (log Notice "Queues available for local testing:" p2)
    with (Normal tt, with_log p2 [(Notice, "Queues available for local testing:")])
    in Hlog.
  inversion Hlog; subst q4. clear Hlog.
  apply bind_normal in Hrun as [handlers [q5 [Hh Hrun]]].
  inversion Hh; subst handlers q5. clear Hh.
  simpl queueHandlers in Hrun. rewrite summary_lines in Hrun.
  exists p1, p2. repeat split; auto. now inversion Hrun.
Qed.

(** ** Every declared queue is registered *)




(** X5. A normal run of [start] over a configuration with resources ends
    its log with the notice [Queues available for local testing:] followed
    by one line per key of the handlers, in their order, each showing the
    handler of the queue ([null] when it has none). *)
Theorem start_summary_lists_every_queue :
  forall (svc : service) (fs : obj) (r : value) (p p' : plugin),
    resources svc = VObj fs ->
    lookup "Resources" fs = Some r ->
    truthy r = true ->
    start svc p = (Normal tt, p') ->
    exists lines,
      logged p'
      = (lines ++ (Notice, "Queues available for local testing:")
               :: map summary_of (queueHandlers p'))%list.
Proof.
  intros svc fs r p p' Hres Hlookup Htruthy Hrun.
  assert (Hr : opt_Get (resources svc) "Resources" = Normal r).
  { rewrite Hres. unfold opt_Get. simpl. now rewrite Hlookup. }
  destruct (start_phases svc r p p' Hr Htruthy Hrun) as (p1 & p2 & _ & _ & ->).
  exists (logged p2). reflexivity.
Qed.

(** ** Every handler is the name of a function *)

Lemma lookup_register (o : obj) (q k : string) (v h : value) :
  lookup q o = None ->
  lookup k (o ++ [(q, v)])%list = Some h ->
  lookup k o = Some h \/ (k = q /\ h = v).
Proof.
  intros Hq. induction o as [|[k' v'] o IH]; simpl in *.
  - destruct (String.eqb_spec q k) as [->|]; [|discriminate].
    intros H. inversion H. auto.
  - destruct (k' =? q) eqn:E1; [discriminate|].
    destruct (k' =? k); [auto|]. now apply IH.
Qed.

(** As [start_keeps], with the names that the scan can assign: those of
    the function definitions, when they are neither [undefined] nor
    [null]. *)
Lemma start_keeps_names (I : obj -> Prop) (svc : service) :
  (forall (o : obj) (q : string) (handler functionName : value)
          (name : string) (definition : value),
      I o -> lookup q o = Some handler -> nullish handler = true ->
      In (name, definition) (function_entries svc) ->
      Get definition "name" = Normal functionName ->
      nullish functionName = false ->
      I (assign q functionName o)) ->
  (forall (o : obj) (q : string),
      I o -> lookup q o = None -> I (o ++ [(q, VNull)])%list) ->
  forall p, I (queueHandlers p) -> I (queueHandlers (snd (start svc p))).
Proof.
  intros Hassign Hregister p Hp.
  unfold start. unfold bind at 1. unfold log at 1. cbv beta iota.
  unfold bind at 1. unfold lift at 1.
  destruct (opt_Get (resources svc) "Resources") as [r|e]; [|exact Hp].
  destruct (truthy r); cbn [negb]; [|exact Hp].
  unfold bind at 1. unfold lift at 1.
  destruct (Object_entries r) as [entries|e]; [|exact Hp].
  apply (bind_keeps (fun p' => I (queueHandlers p'))).
  - apply (for_of_keeps (fun p' => I (queueHandlers p'))); [|exact Hp].
    intros entry p1 _ H1.
    destruct (declare_queue_effect entry p1) as [E|[q [_ [Hq E]]]];
      rewrite E; [exact H1|].
    now apply Hregister.
  - intros _ p2 H2.
    unfold bind at 1. unfold lift at 1.
    unfold function_entries, entries_of in Hassign.
    destruct (Object_entries (functions svc)) as [functionEntries|e]; [|exact H2].
    apply (bind_keeps (fun p' => I (queueHandlers p'))).
    + apply (bind_functions_keep I
               (fun functionName =>
                  exists name definition,
                    In (name, definition) functionEntries
                    /\ Get definition "name" = Normal functionName
                    /\ nullish functionName = false)).
      * intros o q handler functionName Ho Hl Hn (name & definition & Hin & Hg & Hnn).
        now apply (Hassign o q handler functionName name definition).
      * intros name definition functionName Hin Hg Hnn. now exists name, definition.
      * exact H2.
    + intros _ p4 H4.
      apply (bind_keeps (fun p' => I (queueHandlers p'))); [exact H4|].
      intros _ p5 H5.
      apply (bind_keeps (fun p' => I (queueHandlers p'))); [exact H5|].
      intros handlers p6 H6.
      apply (for_of_keeps (fun p' => I (queueHandlers p'))); [|exact H6].
      intros [queue handler] p7 _ H7. exact H7.
Qed.

(** X4. After [start] from the new plugin, however it ends, the entry of
    every queue is [null] or the [name] of a function definition of the
    configuration, and that name is neither [undefined] nor [null]. *)
Theorem handlers_are_function_names :
  forall (svc : service) (q : string) (handler : value),
    lookup q (queueHandlers (snd (start svc new_plugin))) = Some handler ->
    handler = VNull
    \/ exists name definition,
         In (name, definition) (function_entries svc)
         /\ Get definition "name" = Normal handler
         /\ nullish handler = false.
Proof.
  intros svc q handler. revert q handler.
  apply (start_keeps_names
           (fun o => forall q handler,
                lookup q o = Some handler ->
                handler = VNull
                \/ exists name definition,
                     In (name, definition) (function_entries svc)
                     /\ Get definition "name" = Normal handler
                     /\ nullish handler = false)).
  - intros o k h functionName name definition Ho Hk Hn Hin Hg Hnn q handler Hq.
    destruct (String.eqb_spec k q) as [->|Hne].
    + rewrite lookup_assign_same in Hq. inversion Hq; subst handler.
      right. now exists name, definition.
    + rewrite lookup_assign_other in Hq by exact Hne. exact (Ho q handler Hq).
  - intros o k Ho Hk q handler Hq.
    destruct (lookup_register o k q VNull handler Hk Hq) as [H|[_ ->]];
      [exact (Ho q handler H)|now left].
  - intros q handler H. discriminate.
Qed.

(** ** A bound queue is not left without handler *)

Lemma assigned_stable (K : string) (o : obj) (q : string)
      (handler functionName : value) :
  assigned K o -> lookup q o = Some handler -> nullish handler = true ->
  assigned K (assign q functionName o).
Proof.
  intros [h [Hh Hn]] Hq Hnull. exists h. split; [|exact Hn].
  destruct (String.eqb_spec q K) as [->|Hne]; [congruence|].
  now rewrite lookup_assign_other.
Qed.

Lemma assign_handler_assigns (K : string) (name : string)
      (definition queueName functionName : value) (p : plugin) :
  ToString queueName = K ->
  In K (keys (queueHandlers p)) ->
  Get definition "name" = Normal functionName ->
  nullish functionName = false ->
  assigned K (queueHandlers (snd (assign_handler name definition queueName p))).
Proof.
  intros HK Hin Hname Hnn.
  destruct (lookup K (queueHandlers p)) as [h|] eqn:El;
    [|apply lookup_None_keys in El; contradiction].
  destruct (assign_handler_effect name definition queueName p)
    as [E|(handler & fn & Hl & Hnull & Hfn & E)]; rewrite E.
  - destruct (nullish h) eqn:Eh; [|now exists h].
    exfalso. revert E. subst K.
    unfold assign_handler, bind, lift, handlers_hasOwnProperty, handlers_get,
      handlers_set.
    simpl. rewrite El. simpl. rewrite El, Eh. simpl. rewrite Hname. simpl.
    intros E. assert (Hl : lookup (ToString queueName)
                                  (assign (ToString queueName) functionName
                                          (queueHandlers p)) = Some h)
      by (now rewrite E).
    rewrite lookup_assign_same in Hl. inversion Hl; subst h.
    rewrite Hnn in Eh. discriminate.
  - subst K. rewrite Hname in Hfn. inversion Hfn; subst fn.
    exists functionName. split; [apply lookup_assign_same|exact Hnn].
Qed.

(** X10. In a normal run of [start], a registered queue to which an event
    of a named function resolves has a handler at the end: that function
    or one scanned before it. *)
Theorem bound_queue_gets_a_handler :
  forall (svc : service) (fs : obj) (r : value) (fname : string)
         (definition functionName : value) (events : list value)
         (event sqs queueName : value) (p p' : plugin),
    resources svc = VObj fs ->
    lookup "Resources" fs = Some r ->
    truthy r = true ->
    start svc p = (Normal tt, p') ->
    In (fname, definition) (function_entries svc) ->
    Get definition "name" = Normal functionName ->
    nullish functionName = false ->
    Get definition "events" = Normal (VArr events) ->
    In event events ->
    hasOwnProperty event "sqs" = Normal true ->
    Get event "sqs" = Normal sqs ->
    (forall p0, resolve_queue_name r sqs p0 = (Normal (Some queueName), p0)) ->
    In (ToString queueName) (keys (queueHandlers p')) ->
    exists handler,
      lookup (ToString queueName) (queueHandlers p') = Some handler
      /\ nullish handler = false.
Proof.
  intros svc fs r fname definition functionName events event sqs queueName p p'
         Hres Hlookup Htruthy Hrun Hfin Hname Hnn Hevents Hein Hhas Hsqs Hresolve Hkey.
  assert (Hr : opt_Get (resources svc) "Resources" = Normal r).
  { rewrite Hres. unfold opt_Get. simpl. now rewrite Hlookup. }
  destruct (start_phases svc r p p' Hr Htruthy Hrun) as (p1 & p2 & _ & Hscan & ->).
  simpl queueHandlers in *.
  set (K := ToString queueName) in *.
  destruct (for_of_normal_split _ (fname, definition) _ p1 p2 Hscan Hfin)
    as (l1 & l2 & pa & pb & _ & Hbefore & Hfunction & Hafter).
  (* the rest of the functions keeps the handler *)
  assert (Hrest : assigned K (queueHandlers pb) -> assigned K (queueHandlers p2)).
  { intros Hb.
    pose proof (bind_functions_keep (assigned K) (fun _ => True)
                  (fun o q h f Ho Hq Hn _ => assigned_stable K o q h f Ho Hq Hn)
                  r l2 pb (fun _ _ _ _ _ _ => Logic.I) Hb) as H.
    now rewrite Hafter in H. }
  apply Hrest. clear Hrest.
  (* the keys are those of the end *)
  assert (Hkeys_b : keys (queueHandlers pb) = keys (queueHandlers p2)).
  { pose proof (function_scan_keys r l2 pb) as H. now rewrite Hafter in H. }
  (* the scan of the function *)
  unfold bind_function in Hfunction.
  apply bind_normal in Hfunction as [fn [q0 [Hfn Hfunction]]].
  unfold lift in Hfn. rewrite Hname in Hfn. inversion Hfn; subst fn q0. clear Hfn.
  rewrite Hnn in Hfunction.
  apply bind_normal in Hfunction as [ev [q0 [Hev Hfunction]]].
  unfold lift in Hev. rewrite Hevents in Hev. inversion Hev; subst ev q0. clear Hev.
  apply bind_normal in Hfunction as [evs [q0 [Hevs Hfunction]]].
  inversion Hevs; subst evs q0. clear Hevs.
  destruct (for_of_normal_split _ event _ pa pb Hfunction Hein)
    as (e1 & e2 & pc & pd & _ & Hbefore_e & Hevent & Hafter_e).
  assert (Hrest : assigned K (queueHandlers pd) -> assigned K (queueHandlers pb)).
  { intros Hd.
    pose proof (for_of_keeps (fun q => assigned K (queueHandlers q)) e2
                  (bind_event r fname definition)) as H.
    specialize (H (fun x q _ Hq =>
                     bind_event_keeps (assigned K) (fun _ => True)
                       (fun o k h f Ho Hk Hn _ => assigned_stable K o k h f Ho Hk Hn)
                       r fname definition x q (fun _ _ => Logic.I) Hq) pd Hd).
    now rewrite Hafter_e in H. }
  apply Hrest. clear Hrest.
  assert (Hkeys_d : keys (queueHandlers pd) = keys (queueHandlers pb)).
  { pose proof (for_of_keeps (fun q => keys (queueHandlers q) = keys (queueHandlers pd))
                  e2 (bind_event r fname definition)) as H.
    specialize (H (fun x q _ Hq =>
                     bind_event_keeps (fun o => keys o = keys (queueHandlers pd))
                       (fun _ => True)
                       (fun o k h f Ho Hk Hn _ =>
                          eq_trans (keys_assign_known k f o
                                      ltac:(congruence)) Ho)
                       r fname definition x q (fun _ _ => Logic.I) Hq) pd eq_refl).
    rewrite Hafter_e in H. simpl in H. now symmetry. }
  assert (Hkeys_c : keys (queueHandlers pc) = keys (queueHandlers pd)).
  { pose proof (bind_event_keeps (fun o => keys o = keys (queueHandlers pc))
                  (fun _ => True)
                  (fun o k h f Ho Hk Hn _ =>
                     eq_trans (keys_assign_known k f o ltac:(congruence)) Ho)
                  r fname definition event pc (fun _ _ => Logic.I) eq_refl) as H.
    rewrite Hevent in H. simpl in H. now symmetry. }
  rewrite (bind_event_resolved r fname definition event sqs queueName pc
             Hhas Hsqs (Hresolve pc)) in Hevent.
  pose proof (assign_handler_assigns K fname definition queueName functionName pc
                eq_refl) as H.
  rewrite Hevent in H. simpl in H. apply H; auto.
  rewrite Hkeys_c, Hkeys_d, Hkeys_b. exact Hkey.
Qed.

(** * Further properties of the gateway *)

(** ** The queue name of a URL *)

Lemma final_segment_exists (url : string) : exists q, final_segment url q.
Proof.
  induction url as [|a r [q [Hq [Hr|[pre Hr]]]]].
  - exists EmptyString. split; [reflexivity|now left].
  - subst r. destruct (Ascii.eqb a "/") eqn:Ea.
    + apply Ascii.eqb_eq in Ea. subst a. exists q. split; [exact Hq|].
      right. now exists EmptyString.
    + exists (String a q). split; [simpl; now rewrite Ea|now left].
  - subst r. exists q. split; [exact Hq|]. right. now exists (String a pre).
Qed.

Lemma final_segment_unique (url q1 q2 : string) :
  final_segment url q1 -> final_segment url q2 -> q1 = q2.
Proof.
  intros H1 H2. apply final_segment_at_last in H1, H2. congruence.
Qed.

Lemma ends_with_final_segment (url : string) :
  url <> EmptyString ->
  (ends_with "/" url <-> final_segment url EmptyString).
Proof.
  intros Hne. split.
  - intros [pre ->]. split; [reflexivity|]. right. now exists pre.
  - intros [_ [->|[pre ->]]]; [contradiction|]. now exists pre.
Qed.

(** X9. For a request whose [QueueUrl] is a non-empty string and whose
    [MessageBody] is not empty, [onMessage] answers with the warning for a
    missing queue name exactly when the URL ends with a slash; any other
    URL yields a queue name, with or without slashes in the URL. *)
Theorem queue_name_missing_iff_trailing_slash :
  forall (client : LambdaClient) (fs : obj) (url : string)
         (messageBody : value) (p : plugin),
    lookup "QueueUrl" fs = Some (VStr url) ->
    url <> EmptyString ->
    lookup "MessageBody" fs = Some messageBody ->
    truthy messageBody = true ->
    (onMessage client (VObj fs) p
     = (Normal false,
        with_log p [(Warning, "Missing queue name in queue url: " ++ url)])
     <-> ends_with "/" url).
Proof.
  intros client fs url messageBody p Hurl Hne Hbody Htruthy.
  rewrite (ends_with_final_segment url Hne).
  destruct (final_segment_exists url) as [q Hq].
  destruct (String.eqb_spec q EmptyString) as [->|Hq_ne].
  - split; [intros _; exact Hq|intros _].
    destruct Hq as [_ [->|[pre ->]]]; [contradiction|].
    exact (onMessage_missing_queue_name client fs pre messageBody p
             Hurl Hbody Htruthy).
  - split.
    + intros Hrun. exfalso.
      destruct (lookup q (queueHandlers p)) as [handler|] eqn:El.
      * rewrite (onMessage_dispatch client fs url q messageBody handler p
                   Hurl Hq Hq_ne Hbody Htruthy El) in Hrun.
        assert (Hsent : forall r : completion bool * plugin,
                   r = (Normal false,
                        with_log p [(Warning, "Missing queue name in queue url: " ++ url)]) ->
                   List.length (sent (snd r)) = List.length (sent p))
          by (intros r ->; reflexivity).
        destruct (client (invoke_command handler messageBody q)) as [output|reason];
          [destruct (status_differs output 200)|];
          apply Hsent in Hrun; simpl in Hrun; rewrite length_app in Hrun;
          simpl in Hrun; lia.
      * rewrite (onMessage_unknown_queue client fs url q messageBody p
                   Hurl Hq Hq_ne Hbody Htruthy El) in Hrun.
        inversion Hrun as [Hlog]. apply app_inv_head in Hlog.
        inversion Hlog.
    + intros Hempty. exfalso. apply Hq_ne.
      exact (final_segment_unique url q EmptyString Hq Hempty).
Qed.

(** ** A queue URL that is no string *)

(** X8. The extended form parser can hand over a [QueueUrl] that is an
    array or an object.  Such a value passes the check for a missing URL,
    and, once the [MessageBody] check has passed, [queueUrl.split] throws:
    [onMessage] and the route handler end abruptly with nothing logged and
    nothing sent. *)
Theorem non_string_queue_url_throws :
  forall (client : LambdaClient) (fs : obj) (queueUrl messageBody : value)
         (p : plugin),
    lookup "QueueUrl" fs = Some queueUrl ->
    truthy queueUrl = true ->
    (forall s, queueUrl <> VStr s) ->
    lookup "MessageBody" fs = Some messageBody ->
    truthy messageBody = true ->
    onMessage client (VObj fs) p
    = (Throw (TypeError (NotAFunction queueUrl "split")), p)
    /\ (lookup "Action" fs = Some (VStr "SendMessage") ->
        post_root client (VObj fs) p
        = (Throw (TypeError (NotAFunction queueUrl "split")), p)).
Proof.
  intros client fs queueUrl messageBody p Hurl Htruthy Hnot Hbody Hbt.
  assert (E : onMessage client (VObj fs) p
              = (Throw (TypeError (NotAFunction queueUrl "split")), p)).
  { unfold onMessage.
    unfold bind at 1. unfold lift at 1. simpl Get. rewrite Hurl, Htruthy. cbn [negb].
    unfold bind at 1. unfold lift at 1. simpl Get. rewrite Hbody, Hbt. cbn [negb].
    unfold bind at 1. unfold lift at 1.
    destruct queueUrl; try discriminate; try reflexivity.
    now contradiction (Hnot s). }
  split; [exact E|]. intros Haction.
  now rewrite (post_root_SendMessage client fs p Haction), E.
Qed.

(** ** What a response tells *)

Lemma at_last_is_string (c : ascii) (s : string) :
  exists q, at_last (split c s) = VStr q.
Proof.
  unfold at_last. pose proof (split_not_nil c s) as Hne.
  destruct (split c s) as [|x l]; [contradiction|].
  clear Hne. revert x. induction l as [|y l IH]; intros x.
  - now exists x.
  - change (map VStr (x :: y :: l)) with (VStr x :: map VStr (y :: l)).
    destruct (IH y) as [q Hq]. exists q. rewrite <- Hq. reflexivity.
Qed.

(** Every run of [onMessage] either sends nothing and does not return
    true, or sends one command, to the entry of a key of the handlers,
    and returns true exactly when the client answers with status 200. *)
Lemma onMessage_outcome (client : LambdaClient) (body : value) (p : plugin) :
  (sent (snd (onMessage client body p)) = sent p
   /\ fst (onMessage client body p) <> Normal true)
  \/ exists q handler messageBody,
       lookup q (queueHandlers p) = Some handler
       /\ q <> EmptyString
       /\ truthy messageBody = true
       /\ sent (snd (onMessage client body p))
          = (sent p ++ [invoke_command handler messageBody q])%list
       /\ (fst (onMessage client body p) = Normal true <->
           exists output,
             client (invoke_command handler messageBody q) = Fulfilled output
             /\ StatusCode output = Some 200%Z).
Proof.
  remember (onMessage client body p) as r eqn:Er. unfold onMessage in Er.
  unfold bind at 1 in Er. unfold lift at 1 in Er.
  destruct (Get body "QueueUrl") as [queueUrl|e];
    [|subst r; left; split; [reflexivity|discriminate]].
  destruct (truthy queueUrl) eqn:Hu; cbn [negb] in Er;
    [|subst r; left; split; [reflexivity|discriminate]].
  unfold bind at 1 in Er. unfold lift at 1 in Er.
  destruct (Get body "MessageBody") as [messageBody|e];
    [|subst r; left; split; [reflexivity|discriminate]].
  destruct (truthy messageBody) eqn:Hm; cbn [negb] in Er;
    [|subst r; left; split; [reflexivity|discriminate]].
  unfold bind at 1 in Er. unfold lift at 1 in Er.
  destruct queueUrl as [| |b|n|url|l|fs];
    try (subst r; left; split; [reflexivity|discriminate]).
  unfold split_at_last in Er.
  destruct (at_last_is_string "/" url) as [q Hq]. rewrite Hq in Er.
  destruct (truthy (VStr q)) eqn:Hqt; cbn [negb] in Er;
    [|subst r; left; split; [reflexivity|discriminate]].
  unfold bind at 1 in Er. unfold handlers_hasOwnProperty at 1 in Er.
  simpl hasOwnProperty in Er. simpl ToString in Er.
  destruct (lookup q (queueHandlers p)) as [handler|] eqn:El; cbn [negb] in Er;
    [|subst r; left; split; [reflexivity|discriminate]].
  unfold bind at 1 in Er. unfold handlers_get at 1 in Er. simpl Get in Er.
  rewrite El in Er.
  unfold bind at 1 in Er. unfold log at 1 in Er. cbv beta iota in Er.
  unfold bind at 1 in Er. unfold send at 1 in Er. cbv beta iota zeta in Er.
  unfold sqs_event in Er. simpl ToString in Er.
  change {| FunctionName := handler;
            Payload := json_text
              (VObj [("Records",
                 VArr [VObj [("messageId", VStr "00000000-0000-0000-0000-000000000000");
                             ("receiptHandle", VStr EmptyString);
                             ("body", messageBody);
                             ("attributes", VObj []);
                             ("messageAttributes", VObj []);
                             ("md5OfBody", VStr EmptyString);
                             ("eventSource", VStr "aws:sqs");
                             ("eventSourceARN",
                              VStr ("arn:aws:sqs:localhost:000000000000:" ++ q));
                             ("awsRegion", VStr "localhost")]])]) |}
    with (invoke_command handler messageBody q) in Er.
  right. exists q, handler, messageBody.
  split; [exact El|]. split.
  { intros ->. discriminate. }
  split; [exact Hm|].
  destruct (client (invoke_command handler messageBody q)) as [output|reason].
  - unfold status_differs in Er.
    destruct (StatusCode output) as [c|] eqn:Ec.
    + destruct (Z.eqb_spec c 200) as [->|Hc]; cbn [negb] in Er; subst r; simpl.
      * split; [reflexivity|]. split; [intros _; now exists output|reflexivity].
      * split; [reflexivity|]. split; [discriminate|].
        intros [o [Ho Hs]]. inversion Ho; subst o. congruence.
    + subst r. simpl. split; [reflexivity|]. split; [discriminate|].
      intros [o [Ho Hs]]. inversion Ho; subst o. congruence.
  - subst r. simpl. split; [reflexivity|]. split; [discriminate|].
    intros [o [Ho _]]. discriminate.
Qed.

Lemma post_root_cases (client : LambdaClient) (requestBody : value) (p : plugin) :
  (exists text line,
      post_root client requestBody p
      = (Normal {| status := 400; contentType := None; sentBody := Some text |},
         with_log p [(Warning, line)]))
  \/ post_root client requestBody p
     = match onMessage client requestBody p with
       | (Normal true, p') => (Normal send_message_response, p')
       | (Normal false, p') => (Normal (bad_request None), p')
       | (Throw e, p') => (Throw e, p')
       end.
Proof.
  remember (post_root client requestBody p) as r eqn:Er.
  unfold post_root in Er. unfold bind at 1 in Er. unfold lift at 1 in Er.
  assert (Haction : exists action, opt_Get requestBody "Action" = Normal action).
  { unfold opt_Get. destruct (nullish requestBody) eqn:En; [eauto|].
    now apply Get_normal. }
  destruct Haction as [action Haction]. rewrite Haction in Er.
  destruct (truthy action); cbn [negb] in Er;
    [|left; subst r; do 2 eexists; reflexivity].
  destruct (loose_eq_str action "SendMessage"); cbn [negb] in Er;
    [|left; subst r; do 2 eexists; reflexivity].
  right. unfold bind in Er.
  destruct (onMessage client requestBody p) as [[[|]|e] p']; exact Er.
Qed.

(** X7. Whatever the request, the route handler sends at most one command
    to the Lambda client, and a response it produces has status 200 or
    400.  A 200 response tells that exactly one command was sent, to the
    entry the handlers hold for a non-empty queue name, and that the
    client answered it with status 200. *)
Theorem response_tells_the_invocation :
  forall (client : LambdaClient) (requestBody : value) (p : plugin),
    (sent (snd (post_root client requestBody p)) = sent p
     \/ exists command,
          sent (snd (post_root client requestBody p)) = (sent p ++ [command])%list)
    /\ (forall resp p',
        post_root client requestBody p = (Normal resp, p') ->
        (status resp = 200%Z \/ status resp = 400%Z)
        /\ (status resp = 200%Z ->
            exists q handler messageBody output,
              lookup q (queueHandlers p) = Some handler
              /\ q <> EmptyString
              /\ truthy messageBody = true
              /\ sent p' = (sent p ++ [invoke_command handler messageBody q])%list
              /\ client (invoke_command handler messageBody q) = Fulfilled output
              /\ StatusCode output = Some 200%Z)).
Proof.
  intros client requestBody p.
  destruct (post_root_cases client requestBody p) as [(text & line & E)|E].
  - rewrite E. split; [now left|].
    intros resp p' H. inversion H; subst resp p'. simpl.
    split; [now right|discriminate].
  - rewrite E. clear E.
    pose proof (onMessage_outcome client requestBody p) as Hout.
    destruct (onMessage client requestBody p) as [[[|]|e] p1]; simpl in Hout.
    + destruct Hout as [[_ Hne]|(q & handler & messageBody & Hl & Hq & Hm & Hs & Hiff)];
        [now contradiction Hne|].
      split; [right; eauto|].
      intros resp p' H. inversion H; subst resp p'. simpl.
      split; [now left|]. intros _.
      destruct (proj1 Hiff eq_refl) as [output [Hc Hstatus]].
      exists q, handler, messageBody, output. auto 10.
    + split.
      * destruct Hout as [[Hs _]|(q & handler & messageBody & _ & _ & _ & Hs & _)];
          [now left|right; eauto].
      * intros resp p' H. inversion H; subst resp p'. simpl.
        split; [now right|discriminate].
    + split.
      * destruct Hout as [[Hs _]|(q & handler & messageBody & _ & _ & _ & Hs & _)];
          [now left|right; eauto].
      * intros resp p' H. discriminate.
Qed.

(** * No binding is dropped silently *)



(** ** Abrupt ends of a dispatch *)


(** * The first function of the configuration *)

Lemma declare_scan_unassigned (entries : obj) (p : plugin) :
  Forall (fun entry => snd entry = VNull) (queueHandlers p) ->
  Forall (fun entry => snd entry = VNull)
         (queueHandlers (snd (for_of entries declare_queue p))).
Proof.
  apply (for_of_keeps
           (fun p' => Forall (fun entry => snd entry = VNull) (queueHandlers p'))).
  intros entry p1 _ H1.
  destruct (declare_queue_effect entry p1) as [E|[q [_ [_ E]]]]; rewrite E;
    [exact H1|].
  apply Forall_app. split; [exact H1|]. now repeat constructor.
Qed.

Lemma lookup_Forall (P : value -> Prop) (o : obj) (k : string) (v : value) :
  Forall (fun entry => P (snd entry)) o -> lookup k o = Some v -> P v.
Proof.
  induction o as [|[k' v'] o IH]; simpl; [discriminate|].
  intros H. inversion H; subst. destruct (k' =? k); [|now apply IH].
  intros E. now inversion E; subst.
Qed.

Lemma assign_handler_first (K : string) (name : string)
      (definition queueName functionName : value) (p : plugin) :
  ToString queueName = K ->
  Get definition "name" = Normal functionName ->
  (exists h, lookup K (queueHandlers p) = Some h
             /\ (nullish h = true \/ h = functionName)) ->
  lookup K (queueHandlers (snd (assign_handler name definition queueName p)))
  = Some functionName.
Proof.
  intros HK Hname [h [Hl Hh]]. subst K.
  unfold assign_handler, bind, lift, handlers_hasOwnProperty, handlers_get,
    handlers_set.
  simpl. rewrite Hl. simpl. rewrite Hl.
  destruct (nullish h) eqn:En; simpl.
  - rewrite Hname. simpl. apply lookup_assign_same.
  - destruct Hh as [Hh|Hh]; [discriminate|]. now subst h.
Qed.

(** X12. In a normal run of [start] from the new plugin, a registered
    queue to which an event of the first function of the configuration
    resolves has that function's name as its handler at the end, whatever
    the later functions bind. *)
Theorem first_function_keeps_its_queues :
  forall (svc : service) (fs : obj) (r : value) (fname : string)
         (definition functionName : value) (rest : obj) (events : list value)
         (event sqs queueName : value) (p' : plugin),
    resources svc = VObj fs ->
    lookup "Resources" fs = Some r ->
    truthy r = true ->
    start svc new_plugin = (Normal tt, p') ->
    function_entries svc = (fname, definition) :: rest ->
    Get definition "name" = Normal functionName ->
    nullish functionName = false ->
    Get definition "events" = Normal (VArr events) ->
    In event events ->
    hasOwnProperty event "sqs" = Normal true ->
    Get event "sqs" = Normal sqs ->
    (forall p0, resolve_queue_name r sqs p0 = (Normal (Some queueName), p0)) ->
    In (ToString queueName) (keys (queueHandlers p')) ->
    lookup (ToString queueName) (queueHandlers p') = Some functionName.
Proof.
  intros svc fs r fname definition functionName rest events event sqs queueName p'
         Hres Hlookup Htruthy Hrun Hentries Hname Hnn Hevents Hein Hhas Hsqs
         Hresolve Hkey.
  assert (Hr : opt_Get (resources svc) "Resources" = Normal r).
  { rewrite Hres. unfold opt_Get. simpl. now rewrite Hlookup. }
  destruct (start_phases svc r new_plugin p' Hr Htruthy Hrun)
    as (p1 & p2 & Hdeclare & Hscan & ->).
  simpl queueHandlers in *.
  set (K := ToString queueName) in *.
  pose (fixed := fun o : obj => lookup K o = Some functionName).
  assert (Hfixed : forall o q h f,
             fixed o -> lookup q o = Some h -> nullish h = true ->
             True -> fixed (assign q f o)).
  { unfold fixed. intros o q h f Ho Hq Hn _.
    destruct (String.eqb_spec q K) as [->|Hne]; [congruence|].
    now rewrite lookup_assign_other. }
  pose (keysame := fun (p0 : plugin) (o : obj) => keys o = keys (queueHandlers p0)).
  assert (Hkeysame : forall p0 o q h f,
             keysame p0 o -> lookup q o = Some h -> nullish h = true ->
             True -> keysame p0 (assign q f o)).
  { unfold keysame. intros p0 o q h f Ho Hq Hn _.
    rewrite keys_assign_known; [exact Ho|congruence]. }
  (* the handlers are all null when the scan of the functions begins *)
  assert (Hnull : Forall (fun entry => snd entry = VNull) (queueHandlers p1)).
  { pose proof (declare_scan_unassigned (entries_of r)
                  (with_log new_plugin [(Notice, "Starting Offline SQS invoke")])
                  (Forall_nil _)) as H.
    now rewrite Hdeclare in H. }
  rewrite Hentries, for_of_cons in Hscan.
  apply bind_normal in Hscan as [[] [pb [Hfunction Hafter]]].
  (* the later functions *)
  assert (Hrest : fixed (queueHandlers pb) -> fixed (queueHandlers p2)).
  { intros Hb.
    pose proof (bind_functions_keep fixed (fun _ => True) Hfixed
                  r rest pb (fun _ _ _ _ _ _ => Logic.I) Hb) as H.
    now rewrite Hafter in H. }
  apply Hrest. clear Hrest.
  assert (Hkeys_b : keys (queueHandlers pb) = keys (queueHandlers p2)).
  { pose proof (function_scan_keys r rest pb) as H. now rewrite Hafter in H. }
  (* the events of the first function *)
  unfold bind_function in Hfunction.
  apply bind_normal in Hfunction as [fn [q0 [Hfn Hfunction]]].
  unfold lift in Hfn. rewrite Hname in Hfn. inversion Hfn; subst fn q0. clear Hfn.
  rewrite Hnn in Hfunction.
  apply bind_normal in Hfunction as [ev [q0 [Hev Hfunction]]].
  unfold lift in Hev. rewrite Hevents in Hev. inversion Hev; subst ev q0. clear Hev.
  apply bind_normal in Hfunction as [evs [q0 [Hevs Hfunction]]].
  inversion Hevs; subst evs q0. clear Hevs.
  destruct (for_of_normal_split _ event _ p1 pb Hfunction Hein)
    as (e1 & e2 & pc & pd & _ & Hbefore_e & Hevent & Hafter_e).
  assert (Hname_only : forall fn, Get definition "name" = Normal fn -> True)
    by (intros; exact Logic.I).
  assert (Hrest : fixed (queueHandlers pd) -> fixed (queueHandlers pb)).
  { intros Hd.
    pose proof (for_of_keeps (fun q => fixed (queueHandlers q)) e2
                  (bind_event r fname definition)
                  (fun x q _ Hq =>
                     bind_event_keeps fixed (fun _ => True) Hfixed
                       r fname definition x q Hname_only Hq) pd Hd) as H.
    now rewrite Hafter_e in H. }
  apply Hrest. clear Hrest.
  assert (Hkeys_d : keys (queueHandlers pb) = keys (queueHandlers pd)).
  { pose proof (for_of_keeps (fun q => keysame pd (queueHandlers q)) e2
                  (bind_event r fname definition)
                  (fun x q _ Hq =>
                     bind_event_keeps (keysame pd) (fun _ => True) (Hkeysame pd)
                       r fname definition x q Hname_only Hq) pd eq_refl) as H.
    now rewrite Hafter_e in H. }
  assert (Hkeys_c : keys (queueHandlers pd) = keys (queueHandlers pc)).
  { pose proof (bind_event_keeps (keysame pc) (fun _ => True) (Hkeysame pc)
                  r fname definition event pc Hname_only eq_refl) as H.
    now rewrite Hevent in H. }
  (* before the event, the entry of the queue is null or the function's name *)
  pose (open := fun o : obj =>
                  exists h, lookup K o = Some h
                            /\ (nullish h = true \/ h = functionName)).
  assert (Hopen1 : open (queueHandlers p1)).
  { assert (Hin : In K (keys (queueHandlers p1))).
    { pose proof (for_of_keeps (fun q => keysame p1 (queueHandlers q)) e1
                    (bind_event r fname definition)
                    (fun x q _ Hq =>
                       bind_event_keeps (keysame p1) (fun _ => True) (Hkeysame p1)
                         r fname definition x q Hname_only Hq) p1 eq_refl) as H.
      rewrite Hbefore_e in H. unfold keysame in H. simpl in H.
      rewrite <- H, <- Hkeys_c, <- Hkeys_d, Hkeys_b. exact Hkey. }
    destruct (lookup K (queueHandlers p1)) as [h|] eqn:El;
      [|apply lookup_None_keys in El; contradiction].
    exists h. split; [exact El|]. left.
    now rewrite (lookup_Forall (fun v => v = VNull) _ K h Hnull El). }
  assert (Hopen_c : open (queueHandlers pc)).
  { pose proof (for_of_keeps (fun q => open (queueHandlers q)) e1
                  (bind_event r fname definition)) as H.
    assert (Hstep : forall x q, In x e1 -> open (queueHandlers q) ->
                                open (queueHandlers (snd (bind_event r fname definition x q)))).
    { intros x q _ Hq.
      apply (bind_event_keeps open (fun fn => fn = functionName)); [| |exact Hq].
      - unfold open. intros o k h f [h0 [Hl0 Hh0]] Hk Hn ->.
        destruct (String.eqb_spec k K) as [->|Hne].
        + exists functionName. split; [apply lookup_assign_same|now right].
        + exists h0. split; [now rewrite lookup_assign_other|exact Hh0].
      - intros fn Hfn. congruence. }
    specialize (H Hstep p1 Hopen1). now rewrite Hbefore_e in H. }
  rewrite (bind_event_resolved r fname definition event sqs queueName pc
             Hhas Hsqs (Hresolve pc)) in Hevent.
  pose proof (assign_handler_first K fname definition queueName functionName pc
                eq_refl Hname Hopen_c) as H.
  now rewrite Hevent in H.
Qed.

(** * The further properties at sample inputs *)

Lemma start_returns_early_witness :
  start service_without_resources new_plugin
  = (Normal tt, with_log new_plugin [(Notice, "Starting Offline SQS invoke")]).
Proof.
  apply (start_returns_early_without_resources service_without_resources new_plugin).
  left. reflexivity.
Defined.



Lemma handlers_are_function_names_witness :
  VStr "shop-dev-worker" = VNull
  \/ exists name definition,
       In (name, definition) (function_entries sample_service)
       /\ Get definition "name" = Normal (VStr "shop-dev-worker")
       /\ nullish (VStr "shop-dev-worker") = false.
Proof.
  apply (handlers_are_function_names sample_service "mail" (VStr "shop-dev-worker")).
  vm_compute. reflexivity.
Defined.

Lemma start_summary_witness :
  exists lines,
    logged (snd (start sample_service new_plugin))
    = (lines ++ (Notice, "Queues available for local testing:")
             :: map summary_of
                    (queueHandlers (snd (start sample_service new_plugin))))%list.
Proof.
  apply (start_summary_lists_every_queue sample_service
           [("Resources",
             VObj [("OrdersQueue", queue_resource "orders");
                   ("OrdersAgain", queue_resource "orders");
                   ("Nameless", VObj [("Type", VStr "AWS::SQS::Queue")]);
                   ("Table", VObj [("Type", VStr "AWS::DynamoDB::Table")]);
                   ("MailQueue", queue_resource "mail")])]
           (VObj [("OrdersQueue", queue_resource "orders");
                  ("OrdersAgain", queue_resource "orders");
                  ("Nameless", VObj [("Type", VStr "AWS::SQS::Queue")]);
                  ("Table", VObj [("Type", VStr "AWS::DynamoDB::Table")]);
                  ("MailQueue", queue_resource "mail")])
           new_plugin (snd (start sample_service new_plugin)));
    reflexivity.
Defined.

Lemma response_tells_the_invocation_witness :
  exists q handler messageBody output,
    lookup q (queueHandlers orders_handlers) = Some handler
    /\ q <> EmptyString
    /\ truthy messageBody = true
    /\ sent (snd (post_root accepting_client (VObj send_hello) orders_handlers))
       = (sent orders_handlers ++ [invoke_command handler messageBody q])%list
    /\ accepting_client (invoke_command handler messageBody q) = Fulfilled output
    /\ StatusCode output = Some 200%Z.
Proof.
  destruct (response_tells_the_invocation accepting_client (VObj send_hello)
              orders_handlers) as [_ H].
  apply (proj2 (H send_message_response
                  (snd (post_root accepting_client (VObj send_hello) orders_handlers))
                  ltac:(vm_compute; reflexivity))).
  reflexivity.
Defined.

Lemma non_string_queue_url_witness :
  post_root accepting_client (VObj send_to_array) orders_handlers
  = (Throw (TypeError
              (NotAFunction (VArr [VStr "http://localhost:3003/000000000000/orders"])
                            "split")),
     orders_handlers).
Proof.
  apply (proj2 (non_string_queue_url_throws accepting_client send_to_array
                  (VArr [VStr "http://localhost:3003/000000000000/orders"])
                  (VStr "hello") orders_handlers
                  eq_refl eq_refl ltac:(discriminate) eq_refl eq_refl)).
  reflexivity.
Defined.

Lemma trailing_slash_witness :
  onMessage accepting_client
    (VObj [("QueueUrl", VStr "http://localhost:3003/000000000000/");
           ("MessageBody", VStr "hello")])
    orders_handlers
  = (Normal false,
     with_log orders_handlers
       [(Warning, "Missing queue name in queue url: http://localhost:3003/000000000000/")])
  /\ ~ ends_with "/" "http://localhost:3003/000000000000/orders".
Proof.
  split.
  - apply (proj2 (queue_name_missing_iff_trailing_slash accepting_client
                    [("QueueUrl", VStr "http://localhost:3003/000000000000/");
                     ("MessageBody", VStr "hello")]
                    "http://localhost:3003/000000000000/" (VStr "hello")
                    orders_handlers
                    eq_refl ltac:(discriminate) eq_refl eq_refl)).
    exists "http://localhost:3003/000000000000". reflexivity.
  - intros Hends.
    apply (proj2 (queue_name_missing_iff_trailing_slash accepting_client send_hello
                    "http://localhost:3003/000000000000/orders" (VStr "hello")
                    orders_handlers
                    eq_refl ltac:(discriminate) eq_refl eq_refl)) in Hends.
    vm_compute in Hends. discriminate.
Defined.

Lemma bound_queue_gets_a_handler_witness :
  exists handler,
    lookup "orders" (queueHandlers (snd (start sample_service new_plugin)))
    = Some handler
    /\ nullish handler = false.
Proof.
  apply (bound_queue_gets_a_handler sample_service
           [("Resources",
             VObj [("OrdersQueue", queue_resource "orders");
                   ("OrdersAgain", queue_resource "orders");
                   ("Nameless", VObj [("Type", VStr "AWS::SQS::Queue")]);
                   ("Table", VObj [("Type", VStr "AWS::DynamoDB::Table")]);
                   ("MailQueue", queue_resource "mail")])]
           (VObj [("OrdersQueue", queue_resource "orders");
                  ("OrdersAgain", queue_resource "orders");
                  ("Nameless", VObj [("Type", VStr "AWS::SQS::Queue")]);
                  ("Table", VObj [("Type", VStr "AWS::DynamoDB::Table")]);
                  ("MailQueue", queue_resource "mail")])
           "second"
           (VObj [("name", VStr "shop-dev-second");
                  ("events", VArr [sqs_event_binding (GetAtt_Arn "OrdersQueue");
                                   sqs_event_binding (VStr "undeclared")])])
           (VStr "shop-dev-second")
           [sqs_event_binding (GetAtt_Arn "OrdersQueue");
            sqs_event_binding (VStr "undeclared")]
           (sqs_event_binding (GetAtt_Arn "OrdersQueue"))
           (VObj [("arn", GetAtt_Arn "OrdersQueue")])
           (VStr "orders") new_plugin (snd (start sample_service new_plugin)));
    try reflexivity.
  - vm_compute. tauto.
  - now left.
  - vm_compute. tauto.
Defined.


Lemma first_function_witness :
  lookup "orders" (queueHandlers (snd (start sample_service new_plugin)))
  = Some (VStr "shop-dev-worker").
Proof.
  apply (first_function_keeps_its_queues sample_service
           [("Resources",
             VObj [("OrdersQueue", queue_resource "orders");
                   ("OrdersAgain", queue_resource "orders");
                   ("Nameless", VObj [("Type", VStr "AWS::SQS::Queue")]);
                   ("Table", VObj [("Type", VStr "AWS::DynamoDB::Table")]);
                   ("MailQueue", queue_resource "mail")])]
           (VObj [("OrdersQueue", queue_resource "orders");
                  ("OrdersAgain", queue_resource "orders");
                  ("Nameless", VObj [("Type", VStr "AWS::SQS::Queue")]);
                  ("Table", VObj [("Type", VStr "AWS::DynamoDB::Table")]);
                  ("MailQueue", queue_resource "mail")])
           "worker"
           (VObj [("name", VStr "shop-dev-worker");
                  ("events",
                   VArr [sqs_event_binding orders_arn;
                         sqs_event_binding (GetAtt_Arn "MailQueue");
                         sqs_event_binding (GetAtt_Arn "Nameless");
                         sqs_event_binding (GetAtt_Arn "Missing");
                         sqs_event_binding (VObj [("Fn::ImportValue", VStr "QueueArn")]);
                         VObj [("http", VObj [("path", VStr "/")])]])])
           (VStr "shop-dev-worker")
           (tl (function_entries sample_service))
           [sqs_event_binding orders_arn;
            sqs_event_binding (GetAtt_Arn "MailQueue");
            sqs_event_binding (GetAtt_Arn "Nameless");
            sqs_event_binding (GetAtt_Arn "Missing");
            sqs_event_binding (VObj [("Fn::ImportValue", VStr "QueueArn")]);
            VObj [("http", VObj [("path", VStr "/")])]]
           (sqs_event_binding orders_arn)
           (VObj [("arn", orders_arn)])
           (VStr "orders") (snd (start sample_service new_plugin)));
    try reflexivity.
  - now left.
  - vm_compute. tauto.
Defined.

